(** * Quiz lifecycle engine of [server.js]: shallow embedding and properties

    The development follows the three quiz routes of [src/server.js]:
    - [POST /generate-quiz]   (lines 170-261),
    - [POST /submit-quiz]     (lines 264-319),
    - [GET /quiz-results/:id] (lines 322-353),
    and the process-wide object [quizzes] (line 167) they share, and then
    the routes around them: [POST /token] (lines 27-75), [POST /ask-ai]
    (lines 78-110), [POST /extract-question] (lines 114-164) and
    [POST /generate-summary] (lines 374-418).

    A request body is whatever JSON object the client sent: a field the
    handlers read is any JSON value, and the places where a handler converts
    one to a string (a property key, a template literal) can throw.

    JavaScript strings are sequences of UTF-16 code units, numbers are IEEE-754
    binary64 values, and [quizzes] is a plain object, so a lookup by a
    caller-chosen key also sees the properties of [Object.prototype].  All
    three facts matter for the properties below and are modelled explicitly.

    What the handlers take from outside is an input of the model: the request
    fields, the outcome of the call to the text-generation collaborator,
    [JSON.parse], [Number::toString], [Date.now()], [Math.random()] and the
    timestamps.  The
    engine's resource limits (stack depth, number of spread arguments) are
    not modelled. *)

From Stdlib Require Import ZArith NArith List Bool Lia String Ascii.
From Stdlib Require Import Floats DecimalString.
From stdpp Require Import gmap strings list.

Set Default Proof Using "Type".
Set Warnings "-register-all".

(** ** JavaScript strings *)

(** A string is the list of its UTF-16 code units. *)
Abbreviation jsstring := (list N).

(** An ASCII literal as a JavaScript string. *)
Definition lit (s : string) : jsstring :=
  map N_of_ascii (list_ascii_of_string s).

Module JsString.

Definition backtick : N := 96.
Definition newline : N := 10.

(** [WhiteSpace] and [LineTerminator] of ECMAScript: the code units removed
    by [String.prototype.trim]. *)
Definition is_whitespace (c : N) : bool :=
  ((9 <=? c) && (c <=? 13) || (c =? 32) || (c =? 160) || (c =? 5760)
   || (8192 <=? c) && (c <=? 8202) || (c =? 8232) || (c =? 8233)
   || (c =? 8239) || (c =? 8287) || (c =? 12288) || (c =? 65279))%N.

Fixpoint trimStart (s : jsstring) : jsstring :=
  match s with
  | c :: t => if is_whitespace c then trimStart t else s
  | [] => []
  end.

Definition trimEnd (s : jsstring) : jsstring := rev (trimStart (rev s)).

(** [s.trim()] *)
Definition trim (s : jsstring) : jsstring := trimEnd (trimStart s).

(** [strip_prefix p s] is [Some rest] when [s = p ++ rest]. *)
Fixpoint strip_prefix (p s : jsstring) : option jsstring :=
  match p, s with
  | [], _ => Some s
  | a :: p', b :: s' => if (a =? b)%N then strip_prefix p' s' else None
  | _ :: _, [] => None
  end.

(** The optional [\n?] that ends both fence patterns (greedy: a newline that
    follows the marker is part of the match). *)
Definition opt_newline (s : jsstring) : jsstring :=
  match s with
  | c :: t => if (c =? newline)%N then t else s
  | [] => []
  end.

(** [s.replace(/<marker>\n?/g, '')]: a left-to-right scan that deletes every
    match and resumes after it.  [fuel] bounds the number of scan steps;
    each step consumes at least one code unit, so [length s] steps always
    suffice (see [remove_marker_cons]). *)
Fixpoint remove_marker_fuel (fuel : nat) (marker s : jsstring) : jsstring :=
  match fuel with
  | O => []
  | S fuel' =>
      match s with
      | [] => []
      | c :: t =>
          match strip_prefix marker s with
          | Some rest => remove_marker_fuel fuel' marker (opt_newline rest)
          | None => c :: remove_marker_fuel fuel' marker t
          end
      end
  end.

Definition remove_marker (marker s : jsstring) : jsstring :=
  remove_marker_fuel (length s) marker s.

Definition fence : jsstring := [backtick; backtick; backtick].
Definition json_fence : jsstring := fence ++ lit "json".

(** Lines 222-224:
    [responseText = content.trim()];
    [jsonText = responseText.replace(/```json\n?/g, '').replace(/```\n?/g, '').trim()]. *)
Definition scrub (s : jsstring) : jsstring :=
  trim (remove_marker fence (remove_marker json_fence s)).

Definition jsonText (content : jsstring) : jsstring := scrub (trim content).

(** A string of whitespace only. *)
Definition blank (w : jsstring) : Prop := Forall (fun c => is_whitespace c = true) w.

End JsString.

(** ** JavaScript numbers *)

(** The numbers the handlers keep (counters, lengths, scores, statistics) are
    [NaN], an infinity or an integer far below 2^53; on such integers the
    binary64 operations [+], [Math.max] and [Math.min] are exact.  Rounding
    happens in the two quotients [(correctCount / length) * 100] (line 293)
    and [sum / length] (line 335), which are computed in module [F64]. *)
Inductive num :=
| NaN
| Inf (negative : bool)
| Int (z : Z).

Module F64.

(** A binary64 value; [Finite m e] is [m * 2^e].  The sign of zero is not
    tracked: nothing in the handlers observes it. *)
Inductive t :=
| Nan
| Infinite (negative : bool)
| Finite (m e : Z).

(** The integer nearest to [a / b], ties to the even neighbour
    ([0 <= a], [0 < b]). *)
Definition div_nearest_even (a b : Z) : Z :=
  let q := (a / b)%Z in
  let r := (a mod b)%Z in
  if (2 * r <? b)%Z then q
  else if (b <? 2 * r)%Z then (q + 1)%Z
  else if Z.even q then q else (q + 1)%Z.

(** [a / b] scaled by [2^(-e)], as a fraction of integers. *)
Definition scaled (a b e : Z) : Z * Z :=
  if (e <=? 0)%Z then ((a * 2 ^ (- e))%Z, b) else (a, (b * 2 ^ e)%Z).

(** Round-to-nearest-even of the positive rational [a / b] to a 53-bit
    significand: the result [(m, e)] stands for [m * 2^e] with
    [2^52 <= m < 2^53].  Results are in the normal range for the operands
    that occur here (integers below 2^53 and their quotients). *)
Definition round_ratio (a b : Z) : Z * Z :=
  let e0 := (Z.log2 a - Z.log2 b - 52)%Z in
  let e := (let '(x, y) := scaled a b e0 in
            if (x <? y * 2 ^ 52)%Z then e0 - 1 else e0)%Z in
  let '(x, y) := scaled a b e in
  let m := div_nearest_even x y in
  if (m =? 2 ^ 53)%Z then ((2 ^ 52)%Z, (e + 1)%Z) else (m, e).

Definition signed_round (negative : bool) (a b : Z) : t :=
  if (a =? 0)%Z then Finite 0 0
  else let '(m, e) := round_ratio a b in
       Finite (if negative then - m else m) e.

(** [x / y] for two integers (exactly representable doubles). *)
Definition div (x y : Z) : t :=
  if (y =? 0)%Z then
    if (x =? 0)%Z then Nan else Infinite (x <? 0)%Z
  else signed_round (xorb (x <? 0)%Z (y <? 0)%Z) (Z.abs x) (Z.abs y).

(** [x * k] for a double [x] and an integer [k]. *)
Definition mul (x : t) (k : Z) : t :=
  match x with
  | Nan => Nan
  | Infinite s => if (k =? 0)%Z then Nan else Infinite (xorb s (k <? 0)%Z)
  | Finite m e =>
      let p := (m * k)%Z in
      if (0 <=? e)%Z then signed_round (p <? 0)%Z (Z.abs p * 2 ^ e) 1
      else signed_round (p <? 0)%Z (Z.abs p) (2 ^ (- e))
  end.

(** [Math.round(x)]: the integer nearest to [x], ties towards +infinity,
    that is [floor (x + 1/2)] computed exactly. *)
Definition round (x : t) : num :=
  match x with
  | Nan => NaN
  | Infinite s => Inf s
  | Finite m e =>
      if (0 <=? e)%Z then Int (m * 2 ^ e)
      else Int ((2 * m + 2 ^ (- e)) / 2 ^ (1 - e))
  end.

End F64.

(** [Math.round((correctCount / length) * 100)], line 293. *)
Definition percentage (correctCount total : nat) : num :=
  F64.round (F64.mul (F64.div (Z.of_nat correctCount) (Z.of_nat total)) 100).

(** The percentage the specification asks for: [100 * c / n] rounded to the
    nearest integer, halves upwards, in exact arithmetic. *)
Definition exact_percentage (correctCount total : nat) : Z :=
  ((2 * 100 * Z.of_nat correctCount + Z.of_nat total) / (2 * Z.of_nat total))%Z.

(** [percentage] is exact for every count of correct answers out of [n]. *)
Definition exact_on (n : nat) : bool :=
  forallb (fun c => match percentage c n with
                    | Int z => (z =? exact_percentage c n)%Z
                    | _ => false
                    end) (seq 0 (S n)).

(** An array index or a count as a double (exact below 2^53). *)
Definition float_of_nat (n : nat) : float :=
  PrimFloat.of_uint63 (Uint63.of_Z (Z.of_nat n)).

(** The same two operations on the kernel's primitive binary64 floats, used to
    cross-check [F64] (see [F64_agrees_with_primitive_floats]). *)
Module PrimCheck.

Definition decode (x : float) : F64.t :=
  match Prim2SF x with
  | S754_zero _ => F64.Finite 0 0
  | S754_infinity s => F64.Infinite s
  | S754_nan => F64.Nan
  | S754_finite s m e => F64.Finite (if s then Z.neg m else Z.pos m) e
  end.

Definition quotient (c n : nat) : F64.t :=
  decode (PrimFloat.div (float_of_nat c) (float_of_nat n)).

Definition scaled_quotient (c n : nat) : F64.t :=
  decode (PrimFloat.mul (PrimFloat.div (float_of_nat c) (float_of_nat n))
          (float_of_nat 100)).

Definition t_eqb (x y : F64.t) : bool :=
  match x, y with
  | F64.Nan, F64.Nan => true
  | F64.Infinite a, F64.Infinite b => Bool.eqb a b
  | F64.Finite m e, F64.Finite m' e' => ((m =? m') && (e =? e'))%Z
  | _, _ => false
  end.

Definition agree (c n : nat) : bool :=
  t_eqb (F64.div (Z.of_nat c) (Z.of_nat n)) (quotient c n)
  && t_eqb (F64.mul (F64.div (Z.of_nat c) (Z.of_nat n)) 100) (scaled_quotient c n).

End PrimCheck.

(** The statistics of lines 332-338 add, compare and divide stored scores. *)
Definition js_add (a b : num) : num :=
  match a, b with
  | NaN, _ | _, NaN => NaN
  | Inf s, Inf s' => if Bool.eqb s s' then Inf s else NaN
  | Inf s, Int _ | Int _, Inf s => Inf s
  | Int x, Int y => Int (x + y)
  end.

Definition js_max (a b : num) : num :=
  match a, b with
  | NaN, _ | _, NaN => NaN
  | Inf false, _ | _, Inf false => Inf false
  | Inf true, x | x, Inf true => x
  | Int x, Int y => Int (Z.max x y)
  end.

Definition js_min (a b : num) : num :=
  match a, b with
  | NaN, _ | _, NaN => NaN
  | Inf true, _ | _, Inf true => Inf true
  | Inf false, x | x, Inf false => x
  | Int x, Int y => Int (Z.min x y)
  end.

(** [scores.reduce((a, b) => a + b, 0)] *)
Definition sum_scores (scores : list num) : num := fold_left js_add scores (Int 0).

(** [Math.max(...scores)] and [Math.min(...scores)]: [NaN] as soon as one
    argument is [NaN]; with no argument they are -Infinity and +Infinity. *)
Definition Math_max (scores : list num) : num := fold_left js_max scores (Inf true).
Definition Math_min (scores : list num) : num := fold_left js_min scores (Inf false).

(** [Math.round(sum / length)] for a stored sum and an array length. *)
Definition round_div (sum : num) (len : nat) : num :=
  match sum with
  | NaN => NaN
  | Inf s => Inf s
  | Int z => F64.round (F64.div z (Z.of_nat len))
  end.

(** ** JavaScript values *)

(** Values that come out of [JSON.parse] or of a property read.  Objects keep
    their own properties in insertion order. *)
Inductive value :=
| VUndefined
| VNull
| VBool (b : bool)
| VNum (x : float)
| VStr (s : jsstring)
| VArr (items : list value)
| VObj (fields : list (jsstring * value)).

Definition truthy (v : value) : bool :=
  match v with
  | VUndefined | VNull => false
  | VBool b => b
  | VNum x => negb (PrimFloat.eqb x PrimFloat.zero) && PrimFloat.eqb x x
  | VStr s => negb (bool_decide (s = []))
  | VArr _ | VObj _ => true
  end.

(** [a === b] for two values that do not share an object: the student's
    answers come from the request body and the answer key from the stored
    quiz, so two arrays or objects are never the same reference. *)
Definition strict_eq (a b : value) : bool :=
  match a, b with
  | VUndefined, VUndefined | VNull, VNull => true
  | VBool x, VBool y => Bool.eqb x y
  | VNum x, VNum y => PrimFloat.eqb x y
  | VStr x, VStr y => bool_decide (x = y)
  | _, _ => false
  end.

(** Own property of an object literal; [undefined] when there is none. *)
Fixpoint own_property (k : jsstring) (fields : list (jsstring * value)) : value :=
  match fields with
  | [] => VUndefined
  | (k', v) :: rest => if bool_decide (k = k') then v else own_property k rest
  end.

(** [v.name] for one of the names [question], [options], [correctAnswer],
    which no built-in prototype defines: a [TypeError] ([None]) on [null] and
    [undefined], the own property on an object, [undefined] otherwise. *)
Definition field (v : value) (name : jsstring) : option value :=
  match v with
  | VUndefined | VNull => None
  | VObj fields => Some (own_property name fields)
  | _ => Some VUndefined
  end.

Definition decimal (n : nat) : jsstring := lit (NilZero.string_of_uint (Nat.to_uint n)).

Definition decimalZ (z : Z) : jsstring := lit (NilZero.string_of_int (Z.to_int z)).

(** [answers[idx]] for a truthy [answers]: an element of an array, a one-unit
    string of a string, the property named by the decimal index of an object,
    and [undefined] for numbers and [true].  (The handler never indexes
    [null] or [undefined]: line 268 rejects them.) *)
Definition index (v : value) (idx : nat) : value :=
  match v with
  | VArr items => default VUndefined (items !! idx)
  | VStr s => match s !! idx with Some c => VStr [c] | None => VUndefined end
  | VObj fields => own_property (decimal idx) fields
  | _ => VUndefined
  end.

(** [obj] has an own property named [k]. *)
Definition has_own (k : jsstring) (fields : list (jsstring * value)) : bool :=
  existsb (fun kv => bool_decide (k = fst kv)) fields.

Section Conversions.

(** [Number::toString] of the engine: the decimal text of a number. *)
Variable Number_toString : float -> jsstring.

(** [ToString(v)], which a template literal applies to a substituted value
    and a property access [o[v]] to its key; [None] is a [TypeError].  The
    values are those of a JSON body, so no property holds a function: an
    object with an own [toString] has no callable [toString] and its
    inherited [valueOf] returns the object, so the conversion throws; every
    other object is converted by [Object.prototype.toString].  An array is
    converted by [Array.prototype.join], which writes nothing for [null] and
    [undefined] and converts the other elements in turn. *)
Fixpoint to_string (v : value) : option jsstring :=
  match v with
  | VUndefined => Some (lit "undefined")
  | VNull => Some (lit "null")
  | VBool b => Some (if b then lit "true" else lit "false")
  | VNum x => Some (Number_toString x)
  | VStr s => Some s
  | VArr items =>
      (fix join (l : list value) : option jsstring :=
         match l with
         | [] => Some []
         | x :: rest =>
             match (match x with
                    | VUndefined | VNull => Some []
                    | _ => to_string x
                    end), join rest with
             | Some s, Some t =>
                 Some (match rest with [] => s | _ => s ++ lit "," ++ t end)
             | _, _ => None
             end
         end) items
  | VObj fields =>
      if has_own (lit "toString") fields then None else Some (lit "[object Object]")
  end.

End Conversions.

(** [array.map((x, idx) => f idx x)] for a callback that may throw. *)
Fixpoint map_from {A B : Type} (f : nat -> A -> option B) (idx : nat) (l : list A)
  : option (list B) :=
  match l with
  | [] => Some []
  | x :: rest =>
      match f idx x with
      | None => None
      | Some y =>
          match map_from f (S idx) rest with
          | None => None
          | Some ys => Some (y :: ys)
          end
      end
  end.

(** ** The quiz store *)

Record submission := {
  studentName : value;
  answers : value;
  score : num;
  correctCount : nat;
  totalQuestions : nat;
  submittedAt : jsstring
}.

Record quiz := {
  roomName : value;
  topic : value;
  questions : list value;
  submissions : list submission;
  createdAt : jsstring
}.

(** [const quizzes = {}] (line 167): the own properties of the object. *)
Abbreviation store := (gmap jsstring quiz).

(** The property names every plain object inherits from [Object.prototype];
    each holds a function (or, for [__proto__], the prototype itself), so
    [quizzes[name]] is truthy although no quiz was stored under [name]. *)
Definition Object_prototype_names : list jsstring :=
  map lit ["constructor"; "__proto__"; "hasOwnProperty"; "isPrototypeOf";
           "propertyIsEnumerable"; "toLocaleString"; "toString"; "valueOf";
           "__defineGetter__"; "__defineSetter__"; "__lookupGetter__";
           "__lookupSetter__"]%string.

Inductive slot :=
| Own (q : quiz)
| Inherited
| Absent.

(** [quizzes[quizId]] *)
Definition quizzes_get (st : store) (quizId : jsstring) : slot :=
  match st !! quizId with
  | Some q => Own q
  | None => if bool_decide (quizId ∈ Object_prototype_names) then Inherited else Absent
  end.

(** ** Responses *)

Inductive response (A : Type) :=
| Json (payload : A)
| Error (status : nat) (message : jsstring).
Arguments Json {A} payload.
Arguments Error {A} status message.

Definition status {A : Type} (r : response A) : nat :=
  match r with
  | Json _ => 200
  | Error s _ => s
  end.

(** ** The handlers *)

(** What the routes read besides the request and the store.  A request
    body is a JSON object, so each field the handlers destructure is any JSON
    value, [VUndefined] when the body has no such property.
    [studentQuestions] only feeds the prompt; what it contributes is part of
    the [completion]. *)

Record generate_request := {
  g_topic : value;
  g_roomName : value
}.

(** The outcome of lines 179-181 and 205-222 up to [content.trim()]. *)
Inductive completion :=
| Threw      (* the context of lines 179-181 or awaiting the collaborator raised *)
| NoText     (* the completion carries no [content] string *)
| Text (content : jsstring).

Record generate_env := {
  now : Z;                 (* Date.now() *)
  random36 : jsstring;     (* Math.random().toString(36).substr(2, 9) *)
  g_timestamp : jsstring   (* new Date().toISOString() *)
}.

Record generated := {
  quizId : jsstring;
  public_questions : list value
}.

Record submit_request := {
  s_quizId : value;
  s_studentName : value;
  s_answers : value
}.

Record graded := {
  questionId : nat;
  question : value;
  studentAnswer : value;
  correctAnswer : value;
  isCorrect : bool
}.

Record submit_result := {
  r_score : num;
  r_correctCount : nat;
  r_totalQuestions : nat;
  results : list graded
}.

Record statistics := {
  totalSubmissions : nat;
  averageScore : num;
  highestScore : num;
  lowestScore : num
}.

Record results_view := {
  v_quizId : jsstring;
  v_topic : value;
  v_roomName : value;
  v_createdAt : jsstring;
  v_questions : list value;
  v_submissions : list submission;
  stats : statistics
}.

(** [!field] *)
Definition missing (f : value) : bool := negb (truthy f).

(** [!process.env.NAME]: a variable of the environment is a string when it is
    set. *)
Definition unset (f : option jsstring) : bool :=
  match f with
  | None | Some [] => true
  | Some _ => false
  end.

Definition given (f : option jsstring) : jsstring := default [] f.

Definition invalid_format : jsstring :=
  lit "Failed to parse quiz questions or AI returned invalid format".

(** Line 236. *)
Definition new_quiz_id (env : generate_env) : jsstring :=
  lit "quiz_" ++ decimalZ (now env) ++ lit "_" ++ random36 env.

Definition number_of_nat (n : nat) : value := VNum (float_of_nat n).

(** The callback of lines 251-255. *)
Definition public_question (idx : nat) (q : value) : option value :=
  match field q (lit "question"), field q (lit "options") with
  | Some text, Some options =>
      Some (VObj [(lit "id", number_of_nat idx); (lit "question", text);
                  (lit "options", options)])
  | _, _ => None
  end.

Section Handlers.

(** [JSON.parse]: [None] when it throws. *)
Variable JSON_parse : jsstring -> option value.

Variable Number_toString : float -> jsstring.

(** [POST /generate-quiz] for a request with a body.  The prompt of line 183
    substitutes [topic] and the log of line 247 substitutes [roomName]: either
    conversion may throw, the first before the collaborator is called, the
    second after the quiz is stored. *)
Definition generate_quiz (req : generate_request) (c : completion)
    (env : generate_env) (st : store) : response generated * store :=
  if missing (g_topic req) || missing (g_roomName req) then
    (Error 400 (lit "Topic and roomName are required"), st)
  else
    match to_string Number_toString (g_topic req) with
    | None => (Error 500 (lit "Quiz generation failed"), st)
    | Some _ =>
        match c with
        | Threw => (Error 500 (lit "Quiz generation failed"), st)
        | NoText => (Error 500 invalid_format, st)
        | Text content =>
            match JSON_parse (JsString.jsonText content) with
            | Some (VArr quizQuestions) =>
                let id := new_quiz_id env in
                let st' := <[ id := {| roomName := g_roomName req;
                                       topic := g_topic req;
                                       questions := quizQuestions;
                                       submissions := [];
                                       createdAt := g_timestamp env |} ]> st in
                match to_string Number_toString (g_roomName req),
                      map_from public_question 0 quizQuestions with
                | Some _, Some qs => (Json {| quizId := id; public_questions := qs |}, st')
                | _, _ => (Error 500 (lit "Quiz generation failed"), st')
                end
            | _ => (Error 500 invalid_format, st)
            end
        end
    end.

(** [req.body] is the object the JSON middleware parsed, or [undefined] when
    it parsed none (express 5; express 4 leaves an empty object there):
    destructuring [undefined] at line 172 throws inside the [try]. *)
Definition post_generate_quiz (body : option generate_request) (c : completion)
    (env : generate_env) (st : store) : response generated * store :=
  match body with
  | Some req => generate_quiz req c env st
  | None => (Error 500 (lit "Quiz generation failed"), st)
  end.

End Handlers.

(** The callback of lines 279-291. *)
Definition grade (answers : value) (idx : nat) (q : value) : option graded :=
  let studentAnswer := index answers idx in
  match field q (lit "correctAnswer"), field q (lit "question") with
  | Some key, Some text =>
      Some {| questionId := idx; question := text; studentAnswer := studentAnswer;
              correctAnswer := key; isCorrect := strict_eq studentAnswer key |}
  | _, _ => None
  end.

(** [correctCount] after the map: one increment per correct result. *)
Definition count_correct (rs : list graded) : nat :=
  length (List.filter isCorrect rs).

Section Submit.

Variable Number_toString : float -> jsstring.

(** [POST /submit-quiz] for a request with a body.  The lookup of line 272
    converts [quizId] to a property key and the log of line 307, which runs
    after the push of line 305, converts [studentName] to a string: either
    conversion may throw. *)
Definition submit_quiz (req : submit_request) (timestamp : jsstring) (st : store)
  : response submit_result * store :=
  if missing (s_quizId req) || missing (s_studentName req) || negb (truthy (s_answers req)) then
    (Error 400 (lit "quizId, studentName, and answers are required"), st)
  else
    match to_string Number_toString (s_quizId req) with
    | None => (Error 500 (lit "Quiz submission failed"), st)
    | Some id =>
        match quizzes_get st id with
        | Absent => (Error 404 (lit "Quiz not found"), st)
        | Inherited => (Error 500 (lit "Quiz submission failed"), st)
        | Own q =>
            match map_from (grade (s_answers req)) 0 (questions q) with
            | None => (Error 500 (lit "Quiz submission failed"), st)
            | Some rs =>
                let correct := count_correct rs in
                let total := length (questions q) in
                let score := percentage correct total in
                let sub := {| studentName := s_studentName req;
                              answers := s_answers req;
                              score := score;
                              correctCount := correct;
                              totalQuestions := total;
                              submittedAt := timestamp |} in
                let q' := {| roomName := roomName q; topic := topic q;
                             questions := questions q;
                             submissions := submissions q ++ [sub];
                             createdAt := createdAt q |} in
                match to_string Number_toString (s_studentName req) with
                | Some _ =>
                    (Json {| r_score := score; r_correctCount := correct;
                             r_totalQuestions := total; results := rs |},
                     <[ id := q' ]> st)
                | None => (Error 500 (lit "Quiz submission failed"), <[ id := q' ]> st)
                end
            end
        end
    end.

(** As for generate-quiz: without a body, line 266 throws. *)
Definition post_submit_quiz (body : option submit_request) (timestamp : jsstring)
    (st : store) : response submit_result * store :=
  match body with
  | Some req => submit_quiz req timestamp st
  | None => (Error 500 (lit "Quiz submission failed"), st)
  end.

End Submit.

(** Lines 332-338. *)
Definition compute_stats (subs : list submission) : statistics :=
  let scores := map score subs in
  let nonempty := negb (Nat.eqb (length scores) 0) in
  {| totalSubmissions := length subs;
     averageScore := if nonempty then round_div (sum_scores scores) (length scores) else Int 0;
     highestScore := if nonempty then Math_max scores else Int 0;
     lowestScore := if nonempty then Math_min scores else Int 0 |}.

(** [GET /quiz-results/:quizId] *)
Definition quiz_results (id : jsstring) (st : store) : response results_view :=
  match quizzes_get st id with
  | Absent => Error 404 (lit "Quiz not found")
  | Inherited => Error 500 (lit "Failed to fetch quiz results")
  | Own q =>
      Json {| v_quizId := id; v_topic := topic q; v_roomName := roomName q;
              v_createdAt := createdAt q; v_questions := questions q;
              v_submissions := submissions q; stats := compute_stats (submissions q) |}
  end.

(** ** Runs of the service *)

Inductive request :=
| Generate (req : generate_request) (c : completion) (env : generate_env)
| Submit (req : submit_request) (timestamp : jsstring)
| Results (id : jsstring).

Section Runs.

Variable JSON_parse : jsstring -> option value.

Variable Number_toString : float -> jsstring.

(** One request: the status sent and the store left behind.  (A request
    without a body leaves the store as it is and is not listed.) *)
Definition step (r : request) (st : store) : nat * store :=
  match r with
  | Generate req c env =>
      let '(resp, st') := generate_quiz JSON_parse Number_toString req c env st in
      (status resp, st')
  | Submit req ts =>
      let '(resp, st') := submit_quiz Number_toString req ts st in (status resp, st')
  | Results id => (status (quiz_results id st), st)
  end.

Fixpoint run (rs : list request) (st : store) : store :=
  match rs with
  | [] => st
  | r :: rest => run rest (snd (step r st))
  end.

(** The request is a submission whose [quizId] names the quiz [id]. *)
Definition submits_to (id : jsstring) (r : request) : bool :=
  match r with
  | Submit req _ => bool_decide (to_string Number_toString (s_quizId req) = Some id)
  | _ => false
  end.

(** The requests of a run that are submissions to [id] answered with 200. *)
Fixpoint accepted_submissions (id : jsstring) (rs : list request) (st : store) : nat :=
  match rs with
  | [] => 0
  | r :: rest =>
      (if submits_to id r && Nat.eqb (fst (step r st)) 200 then 1 else 0)
      + accepted_submissions id rest (snd (step r st))
  end.

(** No [Generate] of the run mints the identifier [id] again. *)
Definition never_reissued (id : jsstring) (rs : list request) : Prop :=
  Forall (fun r => match r with
                   | Generate _ _ env => new_quiz_id env <> id
                   | _ => True
                   end) rs.

End Runs.

(** ** Well-formed requests and questions *)

(** The requests that pass the validation of lines 174 and 268. *)
Definition well_formed_generate (req : generate_request) : Prop :=
  missing (g_topic req) = false /\ missing (g_roomName req) = false.

Definition well_formed_submit (req : submit_request) : Prop :=
  missing (s_quizId req) = false /\ missing (s_studentName req) = false /\
  truthy (s_answers req) = true.

(** An array element on which a property read does not throw. *)
Definition non_null (q : value) : Prop := q <> VNull /\ q <> VUndefined.

(** A value that a template literal or a property access converts to a
    string without throwing; every string is one. *)
Definition printable (Number_toString : float -> jsstring) (v : value) : Prop :=
  is_Some (to_string Number_toString v).

(** The invariant of the data model: every recorded submission was graded
    against the questions of its quiz, and its score is the rounding of line
    293 applied to its own counts. *)
Definition consistent_submission (q : quiz) (s : submission) : Prop :=
  totalQuestions s = length (questions q) /\
  correctCount s <= totalQuestions s /\
  score s = percentage (correctCount s) (totalQuestions s).

Definition consistent (st : store) : Prop :=
  forall id q, st !! id = Some q -> Forall (consistent_submission q) (submissions q).

(** ** Data for the examples *)

Definition quote : jsstring := [34%N].

(** The text [[{"correctAnswer":7}]]: one question without text or options and
    with an answer key outside 0..3. *)
Definition keyless_array_text : jsstring :=
  lit "[{" ++ quote ++ lit "correctAnswer" ++ quote ++ lit ":7}]".

(** [JSON.parse] on the handful of texts the examples use; it rejects every
    other text, which is all the examples need of it. *)
Definition sample_parse (text : jsstring) : option value :=
  if bool_decide (text = lit "[]") then Some (VArr [])
  else if bool_decide (text = lit "{}") then Some (VObj [])
  else if bool_decide (text = lit "[null]") then Some (VArr [VNull])
  else if bool_decide (text = keyless_array_text) then
    Some (VArr [VObj [(lit "correctAnswer", number_of_nat 7)]])
  else None.

(** [Number::toString] on the integers below 2^53 in absolute value, which
    it writes in decimal digits; the examples convert no other number. *)
Definition sample_number_text (x : float) : jsstring :=
  match PrimCheck.decode x with
  | F64.Finite m e => decimalZ (if (0 <=? e)%Z then m * 2 ^ e else m / 2 ^ (- e))%Z
  | _ => []
  end.

Definition sample_request : generate_request :=
  {| g_topic := VStr (lit "Photosynthesis"); g_roomName := VStr (lit "room-1") |}.

Definition sample_env : generate_env :=
  {| now := 1700000000000; random36 := lit "k3x9q1z7a";
     g_timestamp := lit "2023-11-14T22:13:20.000Z" |}.

(** A well-formed question with four options and answer key [k]. *)
Definition sample_question (k : nat) : value :=
  VObj [(lit "question", VStr (lit "Which one?"));
        (lit "options", VArr (map (fun s => VStr (lit s)) ["A"; "B"; "C"; "D"]%string));
        (lit "correctAnswer", number_of_nat k)].

Definition quiz_with (qs : list value) (subs : list submission) : quiz :=
  {| roomName := VStr (lit "room-1"); topic := VStr (lit "Photosynthesis"); questions := qs;
     submissions := subs; createdAt := lit "2023-11-14T22:13:20.000Z" |}.

Definition sample_id : jsstring := lit "quiz_1700000000000_k3x9q1z7a".

Definition submit_to (id : jsstring) (answers : value) : submit_request :=
  {| s_quizId := VStr id; s_studentName := VStr (lit "Alice"); s_answers := answers |}.

Definition numbers (l : list nat) : value := VArr (map number_of_nat l).

(** Scenario B of the specification: the key 0,1,1,3,2. *)
Definition scenario_B_store : store :=
  <[ sample_id := quiz_with (map sample_question [0; 1; 1; 3; 2]) [] ]> ∅.

(** Forty well-formed questions, all with key 0, of which a student answers
    the first twenty-three correctly. *)
Definition forty_questions_store : store :=
  <[ sample_id := quiz_with (repeat (sample_question 0) 40) [] ]> ∅.

Definition twenty_three_right : value :=
  numbers (repeat 0 23 ++ repeat 1 17).

(** A quiz generated from the response [[null]]. *)
Definition null_quiz_store : store := <[ sample_id := quiz_with [VNull] [] ]> ∅.

(** A quiz generated from the response [[]]. *)
Definition empty_quiz_store : store := <[ sample_id := quiz_with [] [] ]> ∅.

(** A [studentName] that is an object with a property [toString]: truthy,
    and not convertible to a string. *)
Definition unprintable_name : value := VObj [(lit "toString", number_of_nat 1)].

(** A quiz whose only question came without an answer key. *)
Definition unkeyed_quiz_store : store :=
  <[ sample_id := quiz_with [VObj [(lit "question", VStr (lit "Which one?"))]] [] ]> ∅.

(** A record of [correct] right answers out of five, scored [z]. *)
Definition scored (name : string) (correct : nat) (z : Z) : submission :=
  {| studentName := VStr (lit name); answers := VArr []; score := Int z;
     correctCount := correct; totalQuestions := 5;
     submittedAt := lit "2023-11-14T22:20:00.000Z" |}.

(** Scenario F of the specification: Alice scored 80 and Bob 60. *)
Definition scenario_F_quiz : quiz :=
  quiz_with (map sample_question [0; 1; 1; 3; 2]) [scored "Alice" 4 80; scored "Bob" 3 60].

Definition scenario_F_store : store := <[ sample_id := scenario_F_quiz ]> ∅.

(** The payload of generate-quiz for the response [keyless_array_text]: the
    text and the options of the only question are [undefined]. *)
Definition keyless_payload : generated :=
  {| quizId := new_quiz_id sample_env;
     public_questions :=
       [VObj [(lit "id", number_of_nat 0); (lit "question", VUndefined);
              (lit "options", VUndefined)]] |}.

(** A run over the store of scenario B: two accepted submissions, a read, a
    generation under a later timestamp and a submission to an inherited
    name. *)
Definition sample_run : list request :=
  [Submit (submit_to sample_id (numbers [0; 1; 2; 3; 0])) (lit "2023-11-14T22:20:00.000Z");
   Results sample_id;
   Generate sample_request (Text (lit "[]"))
     {| now := 1700000000001; random36 := lit "k3x9q1z7a";
        g_timestamp := lit "2023-11-14T22:21:00.000Z" |};
   Submit (submit_to sample_id (VArr [])) (lit "2023-11-14T22:22:00.000Z");
   Submit (submit_to (lit "constructor") (VArr [])) (lit "2023-11-14T22:23:00.000Z")].

(** ** The specification's statistics, in exact integer arithmetic *)

Definition total (zs : list Z) : Z := fold_right Z.add 0%Z zs.

(** The mean rounded to the nearest integer, halves upwards; 0 for no score. *)
Definition rounded_mean (zs : list Z) : Z :=
  match zs with
  | [] => 0%Z
  | _ => ((2 * total zs + Z.of_nat (length zs)) / (2 * Z.of_nat (length zs)))%Z
  end.

Definition highest (zs : list Z) : Z :=
  match zs with
  | [] => 0%Z
  | z :: rest => fold_left Z.max rest z
  end.

Definition lowest (zs : list Z) : Z :=
  match zs with
  | [] => 0%Z
  | z :: rest => fold_left Z.min rest z
  end.

(** ** Code fences *)

(** A response wrapped in a fenced block as Markdown writes it: three
    backticks and an info string on a line of their own, the text, three
    backticks on a line of their own. *)
Definition fenced_with (info text : jsstring) : jsstring :=
  lit "```" ++ info ++ [10%N] ++ text ++ [10%N] ++ lit "```".

(** The two blocks the scrubbing of line 224 is written for: the info string
    [json], in lower case, and no info string. *)
Inductive fence_label := Labelled | Unlabelled.

Definition fenced (l : fence_label) (text : jsstring) : jsstring :=
  fenced_with (match l with Labelled => lit "json" | Unlabelled => [] end) text.

(** ** The routes outside the quiz engine *)

(** What [await groq.chat.completions.create(...)] leaves a route with, as
    far as the reads [completion.choices[0]?.message?.content] tell apart. *)
Inductive reply :=
| Rejected                    (* building the context or awaiting the call raised *)
| NoChoices                   (* [completion.choices] is missing: [choices[0]] throws *)
| NoMessage                   (* [choices[0]] or its [message] is null or undefined *)
| Content (content : value).  (* [message.content], [VUndefined] when absent *)

(** [POST /ask-ai], lines 78-110, for a request with a body: the question
    goes into the message as it is and the content is passed on as it is. *)
Definition ask_ai (question : value) (r : reply) : response value :=
  if missing question then Error 400 (lit "Question is required")
  else
    match r with
    | Rejected | NoChoices => Error 500 (lit "AI response failed")
    | NoMessage => Json VUndefined
    | Content answer => Json answer
    end.

Definition double_quote : N := 34.

(** The second alternative of the pattern of line 157: a double quote that
    ends the string. *)
Definition drop_last_quote (s : jsstring) : jsstring :=
  match rev s with
  | c :: r => if (c =? double_quote)%N then rev r else s
  | [] => []
  end.

(** The [replace] of line 157, whose global pattern matches a double quote
    at the start of the string or one at its end: the scan removes a quote
    at index 0, then a quote at the end of what follows. *)
Definition unquote (s : jsstring) : jsstring :=
  match s with
  | c :: t => if (c =? double_quote)%N then drop_last_quote t else drop_last_quote s
  | [] => []
  end.

Section Prompts.

Variable Number_toString : float -> jsstring.

(** [POST /extract-question], lines 114-164, for a request with a body.  The
    prompt of line 122 substitutes the transcript, which may throw before the
    call.  [content?.trim()] yields [undefined] for a null or undefined
    content and throws for a content that is not a string. *)
Definition extract_question (transcript : value) (r : reply) : response value :=
  if missing transcript then Error 400 (lit "Transcript is required")
  else
    match to_string Number_toString transcript with
    | None => Error 500 (lit "Question extraction failed")
    | Some _ =>
        match r with
        | Rejected | NoChoices => Error 500 (lit "Question extraction failed")
        | NoMessage | Content VUndefined | Content VNull => Json VUndefined
        | Content (VStr s) => Json (VStr (unquote (JsString.trim s)))
        | Content _ => Error 500 (lit "Question extraction failed")
        end
    end.

Definition no_summary : jsstring := lit "No summary available.".

(** [POST /generate-summary], lines 374-418, for a request with a body.  The
    prompt of line 386 substitutes the topic.  [content.trim()] throws unless
    the content is a string; the fallback replaces [undefined] (no message)
    and the empty string. *)
Definition generate_summary (topic : value) (r : reply) : response jsstring :=
  if missing topic then Error 400 (lit "Topic is required")
  else
    match to_string Number_toString topic with
    | None => Error 500 (lit "Summary generation failed")
    | Some _ =>
        match r with
        | Rejected | NoChoices => Error 500 (lit "Summary generation failed")
        | NoMessage => Json no_summary
        | Content (VStr s) =>
            let summary := JsString.trim s in
            Json (match summary with [] => no_summary | _ => summary end)
        | Content _ => Error 500 (lit "Summary generation failed")
        end
    end.

(** The three routes without a body: the destructuring that opens the
    handler throws inside its [try]. *)
Definition post_ask_ai (body : option value) (r : reply) : response value :=
  match body with
  | Some question => ask_ai question r
  | None => Error 500 (lit "AI response failed")
  end.

Definition post_extract_question (body : option value) (r : reply) : response value :=
  match body with
  | Some transcript => extract_question transcript r
  | None => Error 500 (lit "Question extraction failed")
  end.

Definition post_generate_summary (body : option value) (r : reply) : response jsstring :=
  match body with
  | Some topic => generate_summary topic r
  | None => Error 500 (lit "Summary generation failed")
  end.

End Prompts.

(** [POST /token], lines 27-75. *)
Record token_request := {
  t_name : value;
  t_room : value;
  t_role : value;
  t_className : value;
  t_topic : value
}.

(** [process.env]: each variable is a string or undefined. *)
Record livekit_env := {
  LIVEKIT_API_KEY : option jsstring;
  LIVEKIT_API_SECRET : option jsstring;
  LIVEKIT_URL : option jsstring
}.

(** The grant of lines 56-62. *)
Record video_grant := {
  roomJoin : bool;
  room : value;
  canPublish : bool;
  canSubscribe : bool;
  canUpdateOwnMetadata : bool
}.

Record token_response := {
  token : jsstring;
  url : jsstring
}.

(** Lines 41-45: [role] always, [className] and [topic] when truthy. *)
Definition token_metadata (req : token_request) : list (jsstring * value) :=
  [(lit "role", t_role req)]
  ++ (if missing (t_className req) then [] else [(lit "className", t_className req)])
  ++ (if missing (t_topic req) then [] else [(lit "topic", t_topic req)]).

Definition token_grant (req : token_request) : video_grant :=
  {| roomJoin := true; room := t_room req; canPublish := true;
     canSubscribe := true; canUpdateOwnMetadata := true |}.

Section Token.

(** The SDK's [AccessToken]: key, secret, identity, the metadata object (which
    it receives serialised) and the grant; [None] when it throws. *)
Variable toJwt :
  jsstring -> jsstring -> value -> list (jsstring * value) -> video_grant ->
  option jsstring.

Variable Number_toString : float -> jsstring.

(** The template literals of the log of line 65, evaluated after the token
    is signed: a truthy [className] or [topic] is converted to a string. *)
Definition token_log_throws (req : token_request) : bool :=
  (negb (missing (t_className req))
   && negb (bool_decide (is_Some (to_string Number_toString (t_className req)))))
  || (negb (missing (t_topic req))
      && negb (bool_decide (is_Some (to_string Number_toString (t_topic req))))).

(** The handler for a request with a body. *)
Definition token_route (env : livekit_env) (req : token_request)
  : response token_response :=
  if missing (t_name req) || missing (t_room req) || missing (t_role req) then
    Error 400 (lit "Missing name, room, or role")
  else if unset (LIVEKIT_API_KEY env) || unset (LIVEKIT_API_SECRET env)
          || unset (LIVEKIT_URL env) then
    Error 500 (lit "LiveKit ENV variables missing")
  else
    match toJwt (given (LIVEKIT_API_KEY env)) (given (LIVEKIT_API_SECRET env))
                (t_name req) (token_metadata req) (token_grant req) with
    | Some jwt =>
        if token_log_throws req then Error 500 (lit "Token generation failed")
        else Json {| token := jwt; url := given (LIVEKIT_URL env) |}
    | None => Error 500 (lit "Token generation failed")
    end.

(** Without a body, the destructuring of line 29 throws. *)
Definition post_token (env : livekit_env) (body : option token_request)
  : response token_response :=
  match body with
  | Some req => token_route env req
  | None => Error 500 (lit "Token generation failed")
  end.

End Token.

(** [s] has [p] somewhere inside. *)
Definition contains (p s : jsstring) : Prop := exists a b, s = a ++ p ++ b.

(** * Properties *)

(** ** Mapping a callback that may throw *)

Section MapFrom.

Context {A B : Type} (f : nat -> A -> option B).

Lemma map_from_length (l : list A) : forall k ys,
  map_from f k l = Some ys -> length ys = length l.
Proof.
  induction l as [|x l IH]; intros k ys H; simpl in H.
  - by inversion H.
  - destruct (f k x) as [y|]; [|done].
    destruct (map_from f (S k) l) as [ys'|] eqn:E; [|done].
    inversion H; subst. simpl. f_equal. eauto.
Qed.

Lemma map_from_lookup (l : list A) : forall k ys i x,
  map_from f k l = Some ys -> l !! i = Some x ->
  exists y, ys !! i = Some y /\ f (k + i) x = Some y.
Proof.
  induction l as [|x0 l IH]; intros k ys i x H Hi; [done|].
  simpl in H.
  destruct (f k x0) as [y0|] eqn:E0; [|done].
  destruct (map_from f (S k) l) as [ys'|] eqn:E; [|done].
  inversion H; subst ys. destruct i as [|i]; simpl in Hi.
  - inversion Hi; subst x0. exists y0. by rewrite Nat.add_0_r.
  - destruct (IH _ _ _ _ E Hi) as (y & Hy & Hf). exists y. split; [done|].
    by rewrite Nat.add_succ_r.
Qed.

(** The map completes exactly when the callback throws on no element. *)
Lemma map_from_total (l : list A) : forall k,
  Forall (fun x => forall i, is_Some (f i x)) l -> is_Some (map_from f k l).
Proof.
  induction l as [|x l IH]; intros k H; simpl; [by eexists|].
  inversion H as [|? ? Hx Hl]; subst.
  destruct (Hx k) as [y ->]. destruct (IH (S k) Hl) as [ys ->]. by eexists.
Qed.

Lemma map_from_throws (l : list A) : forall k,
  Exists (fun x => forall i, f i x = None) l -> map_from f k l = None.
Proof.
  induction l as [|x l IH]; intros k H; inversion H; subst; simpl.
  - by rewrite H1.
  - destruct (f k x); [|done]. by rewrite IH.
Qed.

End MapFrom.

(** ** Generation *)

Lemma public_question_defined (q : value) :
  non_null q -> forall i, is_Some (public_question i q).
Proof.
  intros [H1 H2] i. unfold public_question. destruct q; try done; by eexists.
Qed.

Lemma printable_string (Number_toString : float -> jsstring) (s : jsstring) :
  printable Number_toString (VStr s).
Proof. by eexists. Qed.

Section Generation.

Variable JSON_parse : jsstring -> option value.

Variable Number_toString : float -> jsstring.

Lemma generate_quiz_valid req c env st :
  well_formed_generate req ->
  printable Number_toString (g_topic req) ->
  generate_quiz JSON_parse Number_toString req c env st =
    match c with
    | Threw => (Error 500 (lit "Quiz generation failed"), st)
    | NoText => (Error 500 invalid_format, st)
    | Text content =>
        match JSON_parse (JsString.jsonText content) with
        | Some (VArr quizQuestions) =>
            let id := new_quiz_id env in
            let st' := <[ id := {| roomName := g_roomName req;
                                   topic := g_topic req;
                                   questions := quizQuestions;
                                   submissions := [];
                                   createdAt := g_timestamp env |} ]> st in
            match to_string Number_toString (g_roomName req),
                  map_from public_question 0 quizQuestions with
            | Some _, Some qs => (Json {| quizId := id; public_questions := qs |}, st')
            | _, _ => (Error 500 (lit "Quiz generation failed"), st')
            end
        | _ => (Error 500 invalid_format, st)
        end
    end.
Proof.
  intros [H1 H2] [t Ht]. unfold generate_quiz. by rewrite H1, H2, Ht.
Qed.

(** C3.  When the text handed to [JSON.parse] (the completion's content,
    trimmed and with the fence markers removed) does not parse, or parses
    to anything but an array, a well-formed generate-quiz request is
    answered with the invalid-format error (status 500) and the store is
    left exactly as it was: no quiz record is created.  (The collaborator
    has answered, so the prompt was built: the topic went into it.) *)
Theorem invalid_response_creates_no_quiz req content env st :
  well_formed_generate req ->
  printable Number_toString (g_topic req) ->
  (JSON_parse (JsString.jsonText content) = None \/
   exists v, JSON_parse (JsString.jsonText content) = Some v /\
             forall items, v <> VArr items) ->
  generate_quiz JSON_parse Number_toString req (Text content) env st
  = (Error 500 invalid_format, st).
Proof.
  intros Hreq Htopic Hbad. rewrite generate_quiz_valid by done.
  destruct Hbad as [-> | (v & -> & Hv)]; [done|].
  destruct v; try done. by destruct (Hv items).
Qed.

(** C10.  Whatever array the response parses to, generate-quiz stores it
    verbatim as the questions of a new quiz with no submissions: neither
    its length nor its elements are inspected.  The request is answered
    with status 200 as soon as no element is [null] (and the room name can
    be logged, as every string can). *)
Theorem any_array_is_persisted req content env st items :
  well_formed_generate req ->
  printable Number_toString (g_topic req) ->
  JSON_parse (JsString.jsonText content) = Some (VArr items) ->
  snd (generate_quiz JSON_parse Number_toString req (Text content) env st) =
    <[ new_quiz_id env := {| roomName := g_roomName req;
                             topic := g_topic req;
                             questions := items;
                             submissions := [];
                             createdAt := g_timestamp env |} ]> st
  /\ (Forall non_null items ->
      printable Number_toString (g_roomName req) ->
      status (fst (generate_quiz JSON_parse Number_toString req (Text content) env st))
      = 200).
Proof.
  intros Hreq Htopic Hparse. rewrite generate_quiz_valid by done. rewrite Hparse.
  cbv zeta. split.
  - by destruct (to_string _ _), (map_from public_question 0 items).
  - intros Hok [room ->].
    destruct (map_from_total public_question items 0) as [qs ->]; [|done].
    eapply Forall_impl; [exact Hok|]. intros q Hq. by apply public_question_defined.
Qed.

(** C4.  In every successful answer of generate-quiz the question set has
    one object per stored question, in order, and each object has exactly
    the properties [id], [question] and [options] (the index, the text and
    the options of that question): no [correctAnswer]. *)
Theorem public_questions_hide_the_key req c env st payload st' :
  generate_quiz JSON_parse Number_toString req c env st = (Json payload, st') ->
  exists q, st' !! quizId payload = Some q /\
    length (public_questions payload) = length (questions q) /\
    forall i question,
      questions q !! i = Some question ->
      exists text options,
        public_questions payload !! i =
          Some (VObj [(lit "id", number_of_nat i); (lit "question", text);
                      (lit "options", options)]) /\
        field question (lit "question") = Some text /\
        field question (lit "options") = Some options /\
        own_property (lit "correctAnswer")
          [(lit "id", number_of_nat i); (lit "question", text);
           (lit "options", options)] = VUndefined.
Proof.
  unfold generate_quiz. intros H.
  destruct (missing (g_topic req) || missing (g_roomName req)); [done|].
  destruct (to_string Number_toString (g_topic req)); [|done].
  destruct c as [| |content]; try done.
  destruct (JSON_parse (JsString.jsonText content)) as [[]|]; try done.
  cbv zeta in H.
  destruct (to_string Number_toString (g_roomName req)); [|done].
  destruct (map_from public_question 0 items) as [qs|] eqn:Hmap; [|done].
  inversion H; subst; clear H. simpl.
  eexists. split; [apply lookup_insert_eq|]. simpl. split.
  - by eapply map_from_length.
  - intros i q Hq.
    destruct (map_from_lookup _ _ _ _ _ _ Hmap Hq) as (y & Hy & Hf).
    simpl in Hf. unfold public_question in Hf.
    destruct (field q (lit "question")) as [text|]; [|done].
    destruct (field q (lit "options")) as [options|]; [|done].
    inversion Hf; subst y. by exists text, options.
Qed.

End Generation.

(** ** Submission *)

Lemma grade_defined (a : value) (q : value) :
  non_null q -> forall i, is_Some (grade a i q).
Proof.
  intros [H1 H2] i. unfold grade. destruct q; try done; by eexists.
Qed.

Lemma grade_null (a : value) : forall i, grade a i VNull = None.
Proof. done. Qed.

Lemma quizzes_get_own (st : store) id q : st !! id = Some q -> quizzes_get st id = Own q.
Proof. intros H. unfold quizzes_get. by rewrite H. Qed.

Lemma well_formed_submit_dec req : {well_formed_submit req} + {~ well_formed_submit req}.
Proof.
  unfold well_formed_submit.
  destruct (missing (s_quizId req)); [right; by intros []|].
  destruct (missing (s_studentName req)); [right; by intros (?&?&?)|].
  destruct (truthy (s_answers req)); [by left|right; by intros (?&?&?)].
Qed.

Lemma count_correct_le (rs : list graded) : count_correct rs <= length rs.
Proof. unfold count_correct. apply List.filter_length_le. Qed.

(** The two roundings of line 293 agree with the kernel's binary64
    arithmetic on every pair [c <= n <= 64]. *)
Lemma F64_agrees_with_primitive_floats :
  forallb (fun n => forallb (fun c => PrimCheck.agree c n) (seq 0 (S n))) (seq 0 65) = true.
Proof. by vm_compute. Qed.

(** For quizzes of 1 to 39 questions (the documented band is 5 to 10) the
    stored score is the exactly rounded percentage. *)
Lemma percentage_exact_up_to_39 (c n : nat) :
  1 <= n <= 39 -> c <= n -> percentage c n = Int (exact_percentage c n).
Proof.
  intros Hn Hc.
  assert (Hall : forallb exact_on (seq 1 39) = true) by (by vm_compute).
  rewrite forallb_forall in Hall.
  assert (Hn' : exact_on n = true) by (apply Hall, in_seq; lia).
  unfold exact_on in Hn'. rewrite forallb_forall in Hn'.
  assert (Hc' : In c (seq 0 (S n))) by (apply in_seq; lia).
  specialize (Hn' c Hc').
  destruct (percentage c n) as [| |z]; try done.
  f_equal. by apply Z.eqb_eq.
Qed.

(** Whether grading throws depends on the stored questions only. *)
Lemma grading_throws_regardless_of_answers (a a' : value) (l : list value) : forall k,
  is_Some (map_from (grade a) k l) <-> is_Some (map_from (grade a') k l).
Proof.
  induction l as [|q l IH]; intros k; simpl; [split; intros _; by eexists|].
  assert (Hq : grade a k q = None /\ grade a' k q = None \/
               is_Some (grade a k q) /\ is_Some (grade a' k q)).
  { destruct q; try (left; done); right; split; by eexists. }
  destruct Hq as [[-> ->]|[[r ->] [r' ->]]]; [reflexivity|].
  specialize (IH (S k)).
  destruct (map_from (grade a) (S k) l), (map_from (grade a') (S k) l).
  - split; intros _; by eexists.
  - destruct IH as [IH _]. destruct IH; [by eexists|done].
  - destruct IH as [_ IH]. destruct IH; [by eexists|done].
  - reflexivity.
Qed.

Lemma index_beyond_array (items : list value) (i : nat) :
  length items <= i -> index (VArr items) i = VUndefined.
Proof. intros H. simpl. by rewrite lookup_ge_None_2. Qed.

Lemma undefined_matches_no_key (key : value) :
  key <> VUndefined -> strict_eq VUndefined key = false.
Proof. by destruct key. Qed.

Section Submission.

Variable Number_toString : float -> jsstring.

(** A request that passes line 268 and whose [quizId] converts to the
    property key [id]. *)
Lemma submit_quiz_valid (req : submit_request) (ts : jsstring) (st : store) id :
  well_formed_submit req ->
  to_string Number_toString (s_quizId req) = Some id ->
  submit_quiz Number_toString req ts st =
    match quizzes_get st id with
    | Absent => (Error 404 (lit "Quiz not found"), st)
    | Inherited => (Error 500 (lit "Quiz submission failed"), st)
    | Own q =>
        match map_from (grade (s_answers req)) 0 (questions q) with
        | None => (Error 500 (lit "Quiz submission failed"), st)
        | Some rs =>
            let score := percentage (count_correct rs) (length (questions q)) in
            let st' :=
              <[ id := {| roomName := roomName q; topic := topic q;
                          questions := questions q;
                          submissions := submissions q ++
                            [{| studentName := s_studentName req;
                                answers := s_answers req;
                                score := score;
                                correctCount := count_correct rs;
                                totalQuestions := length (questions q);
                                submittedAt := ts |}];
                          createdAt := createdAt q |} ]> st in
            match to_string Number_toString (s_studentName req) with
            | Some _ =>
                (Json {| r_score := score; r_correctCount := count_correct rs;
                         r_totalQuestions := length (questions q); results := rs |},
                 st')
            | None => (Error 500 (lit "Quiz submission failed"), st')
            end
        end
    end.
Proof.
  intros (H1 & H2 & H3) Hid. unfold submit_quiz. by rewrite H1, H2, H3, Hid.
Qed.

(** A request that fails validation changes nothing. *)
Lemma submit_quiz_rejected (req : submit_request) (ts : jsstring) (st : store) :
  ~ well_formed_submit req ->
  submit_quiz Number_toString req ts st =
    (Error 400 (lit "quizId, studentName, and answers are required"), st).
Proof.
  intros H. unfold submit_quiz, well_formed_submit in *.
  destruct (missing (s_quizId req)); [done|].
  destruct (missing (s_studentName req)); [done|].
  destruct (truthy (s_answers req)); [|done]. by destruct H.
Qed.

(** A [quizId] that cannot be converted to a property key makes the lookup
    of line 272 throw. *)
Lemma submit_quiz_no_key (req : submit_request) (ts : jsstring) (st : store) :
  well_formed_submit req ->
  to_string Number_toString (s_quizId req) = None ->
  submit_quiz Number_toString req ts st = (Error 500 (lit "Quiz submission failed"), st).
Proof.
  intros (H1 & H2 & H3) Hid. unfold submit_quiz. by rewrite H1, H2, H3, Hid.
Qed.

(** An identifier that is neither stored nor inherited is reported missing,
    and the store is untouched. *)
Lemma unknown_quiz_not_found (req : submit_request) (ts : jsstring) (st : store) id :
  well_formed_submit req ->
  to_string Number_toString (s_quizId req) = Some id ->
  quizzes_get st id = Absent ->
  submit_quiz Number_toString req ts st = (Error 404 (lit "Quiz not found"), st).
Proof.
  intros Hreq Hid H. rewrite (submit_quiz_valid _ _ _ id) by done. by rewrite H.
Qed.

(** A [null] among the stored questions makes every submission fail with
    status 500, before anything is recorded. *)
Lemma null_question_fails_submission (req : submit_request) (ts : jsstring) (st : store)
    id q :
  well_formed_submit req ->
  to_string Number_toString (s_quizId req) = Some id ->
  st !! id = Some q ->
  VNull ∈ questions q ->
  submit_quiz Number_toString req ts st = (Error 500 (lit "Quiz submission failed"), st).
Proof.
  intros Hreq Hid Hq Hnull. rewrite (submit_quiz_valid _ _ _ id) by done.
  rewrite (quizzes_get_own _ _ _ Hq).
  rewrite map_from_throws; [done|].
  apply Exists_exists. exists VNull. split; [done|apply grade_null].
Qed.

(** C6.  The identifier [constructor], like every other name that
    [Object.prototype] defines, is not stored in [quizzes], yet a
    well-formed submission to it is not answered 404 "Quiz not found": the
    lookup of line 272 finds the inherited property, reading [questions] of
    it throws, and the handler answers 500 "Quiz submission failed".  The
    store is unchanged. *)
Theorem inherited_name_is_not_reported_missing (req : submit_request) (ts : jsstring) (st : store) name :
  well_formed_submit req ->
  to_string Number_toString (s_quizId req) = Some name ->
  name ∈ Object_prototype_names ->
  st !! name = None ->
  submit_quiz Number_toString req ts st = (Error 500 (lit "Quiz submission failed"), st).
Proof.
  intros Hreq Hid Hname Hst. rewrite (submit_quiz_valid _ _ _ name) by done.
  unfold quizzes_get. rewrite Hst.
  by rewrite bool_decide_eq_true_2.
Qed.

(** C2.  A submission to a stored quiz with no question is answered with
    status 200 and the score [NaN] (0 / 0 is [NaN], and so are [NaN * 100]
    and [Math.round(NaN)]): the division of line 293 is not guarded, and the
    [NaN] is also what the new submission record stores. *)
Theorem empty_quiz_scores_NaN (req : submit_request) (ts : jsstring) (st : store) id q :
  well_formed_submit req ->
  to_string Number_toString (s_quizId req) = Some id ->
  printable Number_toString (s_studentName req) ->
  st !! id = Some q ->
  questions q = [] ->
  exists st',
    submit_quiz Number_toString req ts st =
      (Json {| r_score := NaN; r_correctCount := 0; r_totalQuestions := 0;
               results := [] |}, st') /\
    exists q', st' !! id = Some q' /\
      map score (submissions q') = map score (submissions q) ++ [NaN].
Proof.
  intros Hreq Hid [name Hname] Hq Hempty. rewrite (submit_quiz_valid _ _ _ id) by done.
  rewrite (quizzes_get_own _ _ _ Hq), Hempty. simpl. rewrite Hname.
  eexists. split; [reflexivity|].
  eexists. split; [apply lookup_insert_eq|]. simpl. by rewrite map_app.
Qed.

(** Every accepted submission stores and returns
    [Math.round((correctCount / length) * 100)], where [correctCount] counts
    the results marked correct and never exceeds the number of questions. *)
Lemma submitted_score (req : submit_request) (ts : jsstring) (st : store) payload st' :
  submit_quiz Number_toString req ts st = (Json payload, st') ->
  exists id q q',
    to_string Number_toString (s_quizId req) = Some id /\
    st !! id = Some q /\
    st' = <[ id := q' ]> st /\
    questions q' = questions q /\
    r_totalQuestions payload = length (questions q) /\
    r_correctCount payload = count_correct (results payload) /\
    r_correctCount payload <= r_totalQuestions payload /\
    r_score payload = percentage (r_correctCount payload) (r_totalQuestions payload) /\
    exists sub, submissions q' = submissions q ++ [sub] /\
      score sub = r_score payload /\
      correctCount sub = r_correctCount payload /\
      totalQuestions sub = r_totalQuestions payload.
Proof.
  intros H. destruct (well_formed_submit_dec req) as [Hreq|Hreq].
  - destruct (to_string Number_toString (s_quizId req)) as [id|] eqn:Hid;
      [|by rewrite submit_quiz_no_key in H].
    rewrite (submit_quiz_valid _ _ _ id) in H by done.
    unfold quizzes_get in H.
    destruct (st !! id) as [q|] eqn:Hq; [|by destruct (bool_decide _)].
    destruct (map_from _ 0 (questions q)) as [rs|] eqn:Hmap; [|done].
    cbv zeta in H.
    destruct (to_string Number_toString (s_studentName req)); [|done].
    inversion H; subst; clear H. simpl.
    eexists id, q, _. split; [done|]. split; [done|]. split; [reflexivity|]. simpl.
    repeat split; try done.
    + rewrite <- (map_from_length _ _ _ _ Hmap). apply count_correct_le.
    + eexists. split; [reflexivity|]. done.
  - by rewrite submit_quiz_rejected in H.
Qed.

(** Scenario B: the answers 0,1,2,3,0 against the key 0,1,1,3,2. *)
Lemma scenario_B :
  exists payload st',
    submit_quiz Number_toString (submit_to sample_id (numbers [0; 1; 2; 3; 0])) (lit "t")
      scenario_B_store = (Json payload, st') /\
    r_correctCount payload = 3 /\ r_totalQuestions payload = 5 /\
    r_score payload = Int 60 /\
    map isCorrect (results payload) = [true; true; false; true; false].
Proof. eexists _, _. split; [vm_compute; reflexivity|]. by vm_compute. Qed.

(** C1.  Forty well-formed questions, twenty-three answered correctly: the
    handler counts 23 of 40 and returns and stores the score 57, whereas
    [round(100 * 23 / 40) = round(57.5) = 58].  In binary64 arithmetic
    [23 / 40] is a little below 0.575 and [(23 / 40) * 100] is
    57.49999999999999, which [Math.round] takes down. *)
Theorem score_of_23_out_of_40 :
  exists payload st' q',
    submit_quiz Number_toString (submit_to sample_id twenty_three_right) (lit "t")
      forty_questions_store = (Json payload, st') /\
    r_correctCount payload = 23 /\ r_totalQuestions payload = 40 /\
    r_score payload = Int 57 /\
    st' !! sample_id = Some q' /\ map score (submissions q') = [Int 57] /\
    exact_percentage 23 40 = 58%Z /\
    PrimCheck.scaled_quotient 23 40 = F64.Finite 8092405580431359 (-47).
Proof. eexists _, _, _. split; [vm_compute; reflexivity|]. by vm_compute. Qed.

(** C7, as amended.  Submitting to a stored quiz whose questions are objects,
    under a name that can be logged, always succeeds, whatever the answers
    hold.  The result for question [i] marks it correct exactly when
    [answers[i] === correctAnswer]; when the answers have no entry at [i]
    (for an array: when it is too short) the entry is [undefined], which
    equals no answer key that is present, so the question is marked
    incorrect.  For any stored quiz, the status of the answer does not depend
    on the answers sent. *)
Theorem missing_answer_is_incorrect (req : submit_request) (ts : jsstring)
    (st : store) id q :
  well_formed_submit req ->
  to_string Number_toString (s_quizId req) = Some id ->
  st !! id = Some q ->
  (Forall non_null (questions q) ->
   printable Number_toString (s_studentName req) ->
   exists payload st',
     submit_quiz Number_toString req ts st = (Json payload, st') /\
     length (results payload) = length (questions q) /\
     forall i question key,
       questions q !! i = Some question ->
       field question (lit "correctAnswer") = Some key ->
       exists r,
         results payload !! i = Some r /\
         studentAnswer r = index (s_answers req) i /\
         correctAnswer r = key /\
         isCorrect r = strict_eq (index (s_answers req) i) key /\
         (key <> VUndefined -> index (s_answers req) i = VUndefined ->
          isCorrect r = false) /\
         (forall items, s_answers req = VArr items -> length items <= i ->
          index (s_answers req) i = VUndefined))
  /\ (forall answers',
        truthy answers' = true ->
        status (fst (submit_quiz Number_toString
                       {| s_quizId := s_quizId req;
                          s_studentName := s_studentName req;
                          s_answers := answers' |} ts st))
        = status (fst (submit_quiz Number_toString req ts st))).
Proof.
  intros Hreq Hid Hq. split.
  - intros Hobj [name Hname]. rewrite (submit_quiz_valid _ _ _ id) by done.
    rewrite (quizzes_get_own _ _ _ Hq).
    destruct (map_from_total (grade (s_answers req)) (questions q) 0) as [rs Hrs].
    { eapply Forall_impl; [exact Hobj|]. intros x Hx. by apply grade_defined. }
    rewrite Hrs. cbv zeta. rewrite Hname. eexists _, _. split; [reflexivity|]. simpl.
    split; [by eapply map_from_length|].
    intros i question key Hi Hkey.
    destruct (map_from_lookup _ _ _ _ _ _ Hrs Hi) as (r & Hr & Hg).
    exists r. split; [done|]. simpl in Hg. unfold grade in Hg.
    rewrite Hkey in Hg. destruct (field question (lit "question")); [|done].
    inversion Hg; subst r; clear Hg. simpl. repeat split.
    + intros Hk ->. by apply undefined_matches_no_key.
    + intros items -> Hlen. by apply index_beyond_array.
  - intros answers' Hanswers.
    destruct Hreq as (H1 & H2 & H3).
    rewrite !(submit_quiz_valid _ _ _ id) by done. simpl.
    rewrite (quizzes_get_own _ _ _ Hq).
    pose proof (grading_throws_regardless_of_answers answers' (s_answers req)
                  (questions q) 0) as Hiff.
    destruct (map_from (grade answers') 0 (questions q)),
             (map_from (grade (s_answers req)) 0 (questions q)); try done.
    + by destruct (to_string Number_toString (s_studentName req)).
    + destruct Hiff as [Hiff _]. destruct Hiff; [by eexists|done].
    + destruct Hiff as [_ Hiff]. destruct Hiff; [by eexists|done].
Qed.

End Submission.

Lemma inherited_name_example :
  well_formed_submit (submit_to (lit "constructor") (numbers [0; 1])) /\
  scenario_B_store !! lit "constructor" = None /\
  submit_quiz sample_number_text (submit_to (lit "constructor") (numbers [0; 1])) (lit "t")
    scenario_B_store =
    (Error 500 (lit "Quiz submission failed"), scenario_B_store).
Proof.
  assert (W : well_formed_submit (submit_to (lit "constructor") (numbers [0; 1])))
    by (by vm_compute).
  assert (L : scenario_B_store !! lit "constructor" = None) by (by vm_compute).
  split; [exact W|]. split; [exact L|].
  apply (inherited_name_is_not_reported_missing sample_number_text _ _ _
           (lit "constructor") W); [reflexivity| |exact L].
  apply (bool_decide_unpack _). by vm_compute.
Defined.

Lemma empty_quiz_example :
  exists st',
    submit_quiz sample_number_text (submit_to sample_id (VArr [])) (lit "t")
      empty_quiz_store =
      (Json {| r_score := NaN; r_correctCount := 0; r_totalQuestions := 0;
               results := [] |}, st') /\
    exists q', st' !! sample_id = Some q' /\
      map score (submissions q') = map score (submissions (quiz_with [] [])) ++ [NaN].
Proof.
  apply (empty_quiz_scores_NaN sample_number_text (submit_to sample_id (VArr []))
           (lit "t") empty_quiz_store sample_id (quiz_with [] [])).
  - by vm_compute.
  - reflexivity.
  - apply printable_string.
  - by vm_compute.
  - reflexivity.
Defined.

Lemma missing_answer_example :
  exists payload st',
    submit_quiz sample_number_text (submit_to sample_id (numbers [0; 1])) (lit "t")
      scenario_B_store = (Json payload, st') /\
    map isCorrect (results payload) = [true; true; false; false; false].
Proof.
  assert (W : well_formed_submit (submit_to sample_id (numbers [0; 1]))) by (by vm_compute).
  assert (L : scenario_B_store !! sample_id
              = Some (quiz_with (map sample_question [0; 1; 1; 3; 2]) []))
    by (by vm_compute).
  destruct (missing_answer_is_incorrect sample_number_text _ (lit "t") _ _ _ W eq_refl L)
    as [H _].
  destruct H as (payload & st' & Hrun & _).
  { repeat constructor; done. }
  { apply printable_string. }
  exists payload, st'. split; [exact Hrun|].
  revert Hrun. vm_compute. intros Hrun. by inversion Hrun.
Defined.

(** C7, counterexample.  The sentence as it is written does not hold where
    a stored question has no [correctAnswer]: the entry that is missing reads [undefined], the key
    reads [undefined], and line 281 finds them equal. *)
Lemma missing_answer_matches_missing_key :
  exists payload st' r,
    submit_quiz sample_number_text (submit_to sample_id (VArr [])) (lit "t")
      unkeyed_quiz_store = (Json payload, st') /\
    index (VArr []) 0 = VUndefined /\
    results payload !! 0 = Some r /\
    isCorrect r = true /\
    r_correctCount payload = 1 /\
    r_score payload = Int 100.
Proof. eexists _, _, _. split; [vm_compute; reflexivity|]. by vm_compute. Qed.


(** ** Statistics *)

Section Rounding.

Local Open Scope Z_scope.

(** Binary64 division rounds to a nearest double: the significand returned by
    [div_nearest_even] is within half a unit of the scaled quotient. *)
Lemma div_nearest_even_bound (a b : Z) :
  0 < b -> 2 * Z.abs (F64.div_nearest_even a b * b - a) <= b.
Proof.
  intros Hb. unfold F64.div_nearest_even.
  pose proof (Z.div_mod a b ltac:(lia)) as Hdm.
  pose proof (Z.mod_pos_bound a b Hb) as Hr.
  destruct (2 * (a mod b) <? b) eqn:E1; [apply Z.ltb_lt in E1; nia|].
  apply Z.ltb_ge in E1.
  destruct (b <? 2 * (a mod b)) eqn:E2; [apply Z.ltb_lt in E2; nia|].
  apply Z.ltb_ge in E2.
  destruct (Z.even (a / b)); nia.
Qed.

Lemma half_up_stable (s n m t : Z) :
  0 <= s -> 0 < n -> 1 <= t -> n < 2 ^ t ->
  2 * Z.abs (m * n - s * 2 ^ t) <= n ->
  (2 * m + 2 ^ t) / 2 ^ (1 + t) = (2 * s + n) / (2 * n).
Proof.
  intros Hs Hn Ht Hlt Herr.
  assert (HP : 2 ^ t = 2 * 2 ^ (t - 1)).
  { rewrite <- Z.pow_succ_r by lia. f_equal. lia. }
  assert (HP' : 2 ^ (1 + t) = 2 * 2 ^ t).
  { rewrite <- Z.pow_succ_r by lia. f_equal. lia. }
  assert (Hpos : 0 < 2 ^ (t - 1)) by (apply Z.pow_pos_nonneg; lia).
  set (p := 2 ^ (t - 1)) in *. rewrite HP', HP in *. clear HP HP'.
  set (k := (2 * s + n) / (2 * n)).
  pose proof (Z.div_mod (2 * s + n) (2 * n) ltac:(lia)) as Hk.
  pose proof (Z.mod_pos_bound (2 * s + n) (2 * n) ltac:(lia)) as Hr.
  fold k in Hk.
  symmetry. apply Z.div_unique with (r := 2 * m + 2 * p - 2 * (2 * p) * k); [|lia].
  left. split.
  - assert (n * ((2 * k - 1) * (2 * p) - 2 * m) <= n) by nia.
    assert ((2 * k - 1) * (2 * p) - 2 * m <= 1) by nia.
    lia.
  - assert (2 * m * n < (2 * k + 1) * n * (2 * p)) by nia.
    nia.
Qed.

(** The rounded significand and its scale, for a quotient below 2^51. *)
Lemma round_ratio_error (a b : Z) :
  0 < a -> 0 < b -> Z.log2 a - Z.log2 b <= 50 ->
  let '(m, e) := F64.round_ratio a b in
  e < 0 /\ 51 - (Z.log2 a - Z.log2 b) <= - e /\
  2 * Z.abs (m * b - a * 2 ^ (- e)) <= b.
Proof.
  intros Ha Hb Hd. unfold F64.round_ratio.
  set (e0 := Z.log2 a - Z.log2 b - 52).
  set (e := let '(x, y) := F64.scaled a b e0 in if x <? y * 2 ^ 52 then e0 - 1 else e0).
  assert (He : e0 - 1 <= e <= e0).
  { subst e. destruct (F64.scaled a b e0). destruct (_ <? _); lia. }
  clearbody e.
  assert (Hsc : F64.scaled a b e = (a * 2 ^ (- e), b)).
  { unfold F64.scaled. destruct (e <=? 0) eqn:E; [done|]. apply Z.leb_gt in E. lia. }
  rewrite Hsc.
  pose proof (div_nearest_even_bound (a * 2 ^ (- e)) b Hb) as Hbound.
  set (m := F64.div_nearest_even (a * 2 ^ (- e)) b) in *. clearbody m.
  destruct (m =? 2 ^ 53) eqn:Em.
  - apply Z.eqb_eq in Em. subst m. split; [lia|]. split; [lia|].
    assert (Hp : 2 ^ (- e) = 2 * 2 ^ (- (e + 1))).
    { rewrite <- Z.pow_succ_r by lia. f_equal. lia. }
    rewrite Hp in Hbound. change (2 ^ 53) with (2 * 2 ^ 52) in Hbound. lia.
  - split; [lia|]. split; [lia|]. exact Hbound.
Qed.

Lemma log2_quotient_bound (a b k : Z) :
  0 < a -> 0 < b -> 0 <= k -> a < 2 ^ k * b -> Z.log2 a - Z.log2 b <= k.
Proof.
  intros Ha Hb Hk Hab.
  pose proof (Z.log2_spec a Ha) as La. pose proof (Z.log2_spec b Hb) as Lb.
  pose proof (Z.log2_nonneg a). pose proof (Z.log2_nonneg b).
  destruct (Z_le_gt_dec (Z.log2 a - Z.log2 b) k) as [|Hgt]; [done|exfalso].
  assert (2 ^ (k + Z.succ (Z.log2 b)) <= 2 ^ Z.log2 a) by (apply Z.pow_le_mono_r; lia).
  rewrite Z.pow_add_r in * by lia. nia.
Qed.

Lemma round_div_exact (s : Z) (n : nat) :
  0 <= s < 2 ^ 51 -> (0 < n)%nat ->
  round_div (Int s) n = Int ((2 * s + Z.of_nat n) / (2 * Z.of_nat n)).
Proof.
  intros Hs Hn. unfold round_div, F64.div.
  destruct (Z.of_nat n =? 0) eqn:E0; [apply Z.eqb_eq in E0; lia|].
  replace (s <? 0) with false by (symmetry; apply Z.ltb_ge; lia).
  replace (Z.of_nat n <? 0) with false by (symmetry; apply Z.ltb_ge; lia).
  rewrite !Z.abs_eq by lia. unfold F64.signed_round. simpl xorb.
  destruct (s =? 0) eqn:Es.
  - apply Z.eqb_eq in Es. subst s. simpl. f_equal.
    symmetry. apply Z.div_small. lia.
  - apply Z.eqb_neq in Es.
    pose proof (Z.log2_spec s ltac:(lia)) as Ls.
    pose proof (Z.log2_spec (Z.of_nat n) ltac:(lia)) as Ln.
    pose proof (Z.log2_nonneg (Z.of_nat n)) as Ln0.
    assert (Ls50 : Z.log2 s <= 50).
    { apply Z.lt_succ_r. apply (Z.pow_lt_mono_r_iff 2); lia. }
    pose proof (round_ratio_error s (Z.of_nat n) ltac:(lia) ltac:(lia) ltac:(lia)) as H.
    destruct (F64.round_ratio s (Z.of_nat n)) as [m e].
    destruct H as (He & Ht & Hb). simpl.
    destruct (0 <=? e) eqn:E; [apply Z.leb_le in E; lia|].
    f_equal. replace (1 - e) with (1 + - e) by lia.
    apply half_up_stable; try lia.
    eapply Z.lt_le_trans; [apply Ln|]. apply Z.pow_le_mono_r; lia.
Qed.

(** For a quiz with at least one question the stored score is an integer
    between 0 and 100. *)
Lemma percentage_range (c n : nat) :
  (1 <= n)%nat -> (c <= n)%nat -> Z.of_nat n < 2 ^ 32 ->
  exists z, percentage c n = Int z /\ 0 <= z <= 100.
Proof.
  intros Hn Hc Hlen. unfold percentage, F64.div.
  destruct (Z.of_nat n =? 0) eqn:E0; [apply Z.eqb_eq in E0; lia|].
  replace (Z.of_nat c <? 0) with false by (symmetry; apply Z.ltb_ge; lia).
  replace (Z.of_nat n <? 0) with false by (symmetry; apply Z.ltb_ge; lia).
  rewrite !Z.abs_eq by lia. unfold F64.signed_round. simpl xorb.
  destruct (Z.of_nat c =? 0) eqn:Ec.
  { exists 0. by vm_compute. }
  apply Z.eqb_neq in Ec.
  set (a := Z.of_nat c) in *. set (b := Z.of_nat n) in *.
  assert (Hle : 0 < a <= b /\ b < 2 ^ 32) by (subst a b; lia).
  clearbody a b.
  assert (Hab : Z.log2 a - Z.log2 b <= 0).
  { pose proof (Z.log2_le_mono a b ltac:(lia)). lia. }
  pose proof (Z.log2_spec a ltac:(lia)) as La.
  pose proof (Z.log2_spec b ltac:(lia)) as Lb.
  pose proof (Z.log2_nonneg a) as La0. pose proof (Z.log2_nonneg b) as Lb0.
  assert (Lb31 : Z.log2 b <= 31).
  { apply Z.lt_succ_r. apply (Z.pow_lt_mono_r_iff 2); lia. }
  pose proof (round_ratio_error a b ltac:(lia) ltac:(lia) ltac:(lia)) as H.
  destruct (F64.round_ratio a b) as [m e]. destruct H as (He & Ht & Hb).
  set (t := - e) in *.
  assert (Hpow : 0 < 2 ^ t) by (apply Z.pow_pos_nonneg; lia).
  assert (Hbt : b < 2 ^ t).
  { eapply Z.lt_le_trans; [apply Lb|]. apply Z.pow_le_mono_r; lia. }
  assert (Hm : 1 <= m <= 2 ^ t) by nia.
  cbn [F64.mul]. destruct (0 <=? e) eqn:E; [apply Z.leb_le in E; lia|].
  replace (m * 100 <? 0) with false by (symmetry; apply Z.ltb_ge; lia).
  rewrite Z.abs_eq by lia. fold t. unfold F64.signed_round.
  destruct (m * 100 =? 0) eqn:Em; [apply Z.eqb_eq in Em; lia|].
  assert (Hlog : Z.log2 (m * 100) - Z.log2 (2 ^ t) <= 7).
  { apply log2_quotient_bound; [lia|lia|lia|]. change (2 ^ 7) with 128. nia. }
  pose proof (round_ratio_error (m * 100) (2 ^ t) ltac:(lia) Hpow ltac:(lia)) as H.
  destruct (F64.round_ratio (m * 100) (2 ^ t)) as [M E2].
  destruct H as (HE & HT & HB). cbn [F64.round].
  destruct (0 <=? E2) eqn:E'; [apply Z.leb_le in E'; lia|].
  eexists. split; [reflexivity|].
  set (T := - E2) in *.
  assert (HpT : 0 < 2 ^ T) by (apply Z.pow_pos_nonneg; lia).
  replace (1 - E2) with (Z.succ T) by lia. rewrite Z.pow_succ_r by lia.
  assert (HM : 0 <= M <= 100 * 2 ^ T) by nia.
  split.
  - apply Z.div_pos; lia.
  - apply Z.lt_succ_r. apply Z.div_lt_upper_bound; lia.
Qed.

End Rounding.

Lemma sum_scores_integers (zs : list Z) : sum_scores (map Int zs) = Int (total zs).
Proof.
  unfold sum_scores.
  assert (H : forall a, fold_left js_add (map Int zs) (Int a) = Int (a + total zs)%Z).
  { induction zs as [|z zs IH]; intros a; simpl.
    - by rewrite Z.add_0_r.
    - rewrite IH. f_equal. lia. }
  by rewrite H.
Qed.

Lemma Math_max_integers (z : Z) (zs : list Z) :
  Math_max (map Int (z :: zs)) = Int (highest (z :: zs)).
Proof.
  unfold Math_max. simpl. generalize z. clear z.
  induction zs as [|y zs IH]; intros z; simpl; [done|]. apply IH.
Qed.

Lemma Math_min_integers (z : Z) (zs : list Z) :
  Math_min (map Int (z :: zs)) = Int (lowest (z :: zs)).
Proof.
  unfold Math_min. simpl. generalize z. clear z.
  induction zs as [|y zs IH]; intros z; simpl; [done|]. apply IH.
Qed.

(** [highest] is the maximum of a non-empty list and [lowest] its minimum. *)
Lemma highest_is_maximum (zs : list Z) :
  zs <> [] -> In (highest zs) zs /\ Forall (fun z => (z <= highest zs)%Z) zs.
Proof.
  destruct zs as [|z zs]; [done|]. intros _. simpl.
  assert (H : forall a, (In (fold_left Z.max zs a) zs \/ fold_left Z.max zs a = a) /\
                        (a <= fold_left Z.max zs a)%Z /\
                        Forall (fun x => (x <= fold_left Z.max zs a)%Z) zs).
  { induction zs as [|y zs IH]; intros a; simpl.
    - split; [by right|]. split; [lia|constructor].
    - destruct (IH (Z.max a y)) as (Hin & Hle & Hall). split; [|split].
      + destruct Hin as [Hin| ->]; [by left; right|].
        destruct (Z.max_spec a y) as [[_ ->]|[_ ->]]; [left; by left|by right].
      + lia.
      + constructor; [lia|done]. }
  destruct (H z) as (Hin & Hle & Hall). split.
  - destruct Hin as [Hin|Heq]; [by right|by left].
  - by constructor.
Qed.

Lemma lowest_is_minimum (zs : list Z) :
  zs <> [] -> In (lowest zs) zs /\ Forall (fun z => (lowest zs <= z)%Z) zs.
Proof.
  destruct zs as [|z zs]; [done|]. intros _. simpl.
  assert (H : forall a, (In (fold_left Z.min zs a) zs \/ fold_left Z.min zs a = a) /\
                        (fold_left Z.min zs a <= a)%Z /\
                        Forall (fun x => (fold_left Z.min zs a <= x)%Z) zs).
  { induction zs as [|y zs IH]; intros a; simpl.
    - split; [by right|]. split; [lia|constructor].
    - destruct (IH (Z.min a y)) as (Hin & Hle & Hall). split; [|split].
      + destruct Hin as [Hin| ->]; [by left; right|].
        destruct (Z.min_spec a y) as [[_ ->]|[_ ->]]; [by right|left; by left].
      + lia.
      + constructor; [lia|done]. }
  destruct (H z) as (Hin & Hle & Hall). split.
  - destruct Hin as [Hin|Heq]; [by right|by left].
  - by constructor.
Qed.

Lemma total_of_percentages (zs : list Z) :
  Forall (fun z => (0 <= z <= 100)%Z) zs -> (0 <= total zs <= 100 * Z.of_nat (length zs))%Z.
Proof.
  induction 1 as [|z zs Hz _ IH]; simpl; [lia|]. lia.
Qed.

(** The statistics of a list of integer percentages.  An array holds fewer
    than 2^32 elements. *)
Lemma compute_stats_integers (subs : list submission) (zs : list Z) :
  map score subs = map Int zs ->
  Forall (fun z => (0 <= z <= 100)%Z) zs ->
  (Z.of_nat (length zs) < 2 ^ 32)%Z ->
  compute_stats subs =
    {| totalSubmissions := length subs;
       averageScore := Int (rounded_mean zs);
       highestScore := Int (highest zs);
       lowestScore := Int (lowest zs) |}.
Proof.
  intros Hscores Hrange Hlen. unfold compute_stats. rewrite Hscores.
  destruct zs as [|z zs]; [done|].
  rewrite length_map. change (negb (Nat.eqb (length (z :: zs)) 0)) with true. cbv iota.
  rewrite sum_scores_integers, Math_max_integers, Math_min_integers.
  pose proof (total_of_percentages _ Hrange) as Ht.
  rewrite round_div_exact; [done| |simpl; lia].
  split; [lia|]. eapply Z.le_lt_trans; [apply Ht|].
  change (2 ^ 51)%Z with (2 ^ 19 * 2 ^ 32)%Z. change (2 ^ 19)%Z with 524288%Z. lia.
Qed.

(** ** Runs: the submissions of a quiz only grow *)

Section RunProperties.

Variable JSON_parse : jsstring -> option value.

Variable Number_toString : float -> jsstring.

(** What submit-quiz does to the store: nothing, or one record appended to
    the quiz that [quizId] names.  The record is there when the answer is
    200, and also when the log of line 307 throws after the push. *)
Lemma submit_quiz_store (req : submit_request) (ts : jsstring) (st : store) :
  (snd (submit_quiz Number_toString req ts st) = st /\
   status (fst (submit_quiz Number_toString req ts st)) <> 200) \/
  exists id q sub,
    to_string Number_toString (s_quizId req) = Some id /\
    st !! id = Some q /\
    snd (submit_quiz Number_toString req ts st) =
      <[ id := {| roomName := roomName q; topic := topic q; questions := questions q;
                  submissions := submissions q ++ [sub];
                  createdAt := createdAt q |} ]> st /\
    consistent_submission q sub /\
    studentName sub = s_studentName req /\ answers sub = s_answers req /\
    submittedAt sub = ts /\
    (status (fst (submit_quiz Number_toString req ts st)) = 200 /\
     printable Number_toString (s_studentName req) \/
     status (fst (submit_quiz Number_toString req ts st)) = 500 /\
     to_string Number_toString (s_studentName req) = None).
Proof.
  destruct (well_formed_submit_dec req) as [Hwf|Hwf];
    [|left; by rewrite submit_quiz_rejected].
  destruct (to_string Number_toString (s_quizId req)) as [id|] eqn:Hid;
    [|left; by rewrite submit_quiz_no_key].
  rewrite (submit_quiz_valid _ _ _ _ id) by done. unfold quizzes_get.
  destruct (st !! id) as [q|] eqn:Hq; [|left; by destruct (bool_decide _)].
  destruct (map_from _ 0 (questions q)) as [rs|] eqn:Hmap; [|by left].
  right. cbv zeta. eexists id, q, _.
  split; [done|]. split; [done|].
  split; [by destruct (to_string Number_toString (s_studentName req))|].
  split.
  { split; [done|]. split; [|done]. simpl.
    rewrite <- (map_from_length _ _ _ _ Hmap). apply count_correct_le. }
  do 3 (split; [done|]).
  destruct (to_string Number_toString (s_studentName req)) eqn:Hname;
    [left|right]; split; try done. by eexists.
Qed.

(** generate-quiz writes the new identifier or nothing. *)
Lemma generate_quiz_store (req : generate_request) (c : completion) (env : generate_env)
    (st : store) :
  snd (generate_quiz JSON_parse Number_toString req c env st) = st \/
  exists items,
    snd (generate_quiz JSON_parse Number_toString req c env st) =
      <[ new_quiz_id env := {| roomName := g_roomName req; topic := g_topic req;
                               questions := items; submissions := [];
                               createdAt := g_timestamp env |} ]> st.
Proof.
  unfold generate_quiz.
  destruct (_ || _); [by left|].
  destruct (to_string Number_toString (g_topic req)); [|by left].
  destruct c as [| |content]; try by left.
  destruct (JSON_parse _) as [[]|]; try by left.
  right. exists items. cbv zeta.
  by destruct (to_string Number_toString (g_roomName req)),
              (map_from public_question 0 items).
Qed.

Lemma step_only_appends (r : request) (st : store) id q :
  st !! id = Some q ->
  never_reissued id [r] ->
  exists q',
    snd (step JSON_parse Number_toString r st) !! id = Some q' /\
    questions q' = questions q /\
    exists added,
      submissions q' = submissions q ++ added /\
      accepted_submissions JSON_parse Number_toString id [r] st <= length added /\
      length added <= length (List.filter (submits_to Number_toString id) [r]).
Proof.
  intros Hq Hfresh. destruct r as [req c env|req ts|id'].
  - (* generate-quiz: a new key, or nothing *)
    inversion Hfresh as [|? ? Hne _]; subst.
    exists q. simpl. split; [|split; [done|exists []; rewrite app_nil_r; simpl; by auto]].
    pose proof (generate_quiz_store req c env st) as Hst.
    destruct (generate_quiz JSON_parse Number_toString req c env st) as [resp st'].
    simpl in *. destruct Hst as [->|[items ->]]; [done|by rewrite lookup_insert_ne].
  - (* submit-quiz *)
    simpl. pose proof (submit_quiz_store req ts st) as Hst.
    destruct (submit_quiz Number_toString req ts st) as [resp st'] eqn:Hsub. simpl in *.
    destruct Hst as [[-> Hs]|(id0 & q0 & sub & Hid & Hq0 & -> & _ & _ & _ & _ & Hs)].
    + exists q. split; [done|]. split; [done|]. exists []. rewrite app_nil_r.
      split; [done|]. simpl. split; [|lia].
      destruct (Nat.eqb_spec (status resp) 200); [done|]. rewrite andb_false_r. simpl. lia.
    + destruct (decide (id0 = id)) as [->|Hne].
      * rewrite Hq in Hq0. inversion Hq0; subst q0.
        eexists. rewrite lookup_insert_eq. split; [done|]. split; [done|].
        exists [sub]. split; [done|]. simpl. rewrite bool_decide_eq_true_2 by done.
        simpl. split; [|lia]. destruct (Nat.eqb (status resp) 200); simpl; lia.
      * exists q. rewrite lookup_insert_ne by done. split; [done|]. split; [done|].
        exists []. rewrite app_nil_r. split; [done|]. simpl.
        rewrite bool_decide_eq_false_2 by congruence. simpl. lia.
  - (* quiz-results reads only *)
    exists q. simpl. split; [done|]. split; [done|]. exists []. rewrite app_nil_r.
    simpl. auto.
Qed.

Lemma run_only_appends (rs : list request) : forall (st : store) id q,
  st !! id = Some q ->
  never_reissued id rs ->
  exists q' added,
    run JSON_parse Number_toString rs st !! id = Some q' /\
    questions q' = questions q /\
    submissions q' = submissions q ++ added /\
    accepted_submissions JSON_parse Number_toString id rs st <= length added /\
    length added <= length (List.filter (submits_to Number_toString id) rs).
Proof.
  induction rs as [|r rs IH]; intros st id q Hq Hfresh.
  - exists q, []. simpl. rewrite app_nil_r. auto.
  - inversion Hfresh as [|? ? Hr Hrs]; subst.
    destruct (step_only_appends r st id q Hq)
      as (q1 & Hq1 & Hqs1 & a1 & Ha1 & Hn1 & Hm1).
    { by constructor. }
    destruct (IH _ _ _ Hq1 Hrs) as (q2 & a2 & Hq2 & Hqs2 & Ha2 & Hn2 & Hm2).
    exists q2, (a1 ++ a2). simpl run. split; [done|]. split; [congruence|].
    split; [by rewrite Ha2, Ha1, app_assoc|].
    rewrite length_app. simpl in *.
    destruct (submits_to Number_toString id r);
      destruct (Nat.eqb (fst (step JSON_parse Number_toString r st)) 200);
      simpl in *; lia.
Qed.

(** Along any run in which the identifier of a stored quiz is not minted
    again, the quiz keeps its questions and its submissions only grow at the
    end: no record is removed or changed.  Every submission to the quiz that
    is answered 200 adds a record, and nothing but a submission to the quiz
    adds one; quiz-results reports the number of records. *)
Theorem submissions_are_append_only (rs : list request) (st : store) id q :
  st !! id = Some q ->
  never_reissued id rs ->
  exists q' added view,
    run JSON_parse Number_toString rs st !! id = Some q' /\
    questions q' = questions q /\
    submissions q' = submissions q ++ added /\
    accepted_submissions JSON_parse Number_toString id rs st <= length added /\
    length added <= length (List.filter (submits_to Number_toString id) rs) /\
    quiz_results id (run JSON_parse Number_toString rs st) = Json view /\
    totalSubmissions (stats view) = length (submissions q) + length added.
Proof.
  intros Hq Hfresh.
  destruct (run_only_appends rs st id q Hq Hfresh)
    as (q' & added & Hq' & Hqs & Ha & Hn & Hm).
  exists q', added. unfold quiz_results. rewrite (quizzes_get_own _ _ _ Hq').
  eexists. do 5 (split; [done|]). split; [reflexivity|]. simpl.
  by rewrite Ha, length_app.
Qed.

(** C8.  A submission whose [studentName] cannot be converted to a string
    (an object with a property [toString]) is graded and pushed at line 305;
    then the log of line 307 throws and the request is answered 500.  The
    record stays: quiz-results counts a submission that was never
    acknowledged. *)
Theorem unlogged_submission_is_recorded (req : submit_request) (ts : jsstring)
    (st : store) id q :
  well_formed_submit req ->
  to_string Number_toString (s_quizId req) = Some id ->
  st !! id = Some q ->
  Forall non_null (questions q) ->
  to_string Number_toString (s_studentName req) = None ->
  exists sub view,
    submit_quiz Number_toString req ts st =
      (Error 500 (lit "Quiz submission failed"),
       <[ id := {| roomName := roomName q; topic := topic q; questions := questions q;
                   submissions := submissions q ++ [sub];
                   createdAt := createdAt q |} ]> st) /\
    studentName sub = s_studentName req /\
    quiz_results id (snd (submit_quiz Number_toString req ts st)) = Json view /\
    totalSubmissions (stats view) = S (length (submissions q)).
Proof.
  intros Hreq Hid Hq Hobj Hname. rewrite (submit_quiz_valid _ _ _ _ id) by done.
  rewrite (quizzes_get_own _ _ _ Hq).
  destruct (map_from_total (grade (s_answers req)) (questions q) 0) as [rs Hrs].
  { eapply Forall_impl; [exact Hobj|]. intros x Hx. by apply grade_defined. }
  rewrite Hrs. cbv zeta. rewrite Hname. eexists _, _. split; [reflexivity|].
  split; [done|]. simpl. unfold quiz_results, quizzes_get. rewrite lookup_insert_eq.
  split; [reflexivity|]. simpl. rewrite length_app. simpl. lia.
Qed.

End RunProperties.

(** ** Code fences *)

Section Fences.

Import JsString.

Lemma strip_prefix_Some (p s rest : jsstring) :
  strip_prefix p s = Some rest <-> s = p ++ rest.
Proof.
  revert s. induction p as [|a p IH]; intros s; simpl.
  - split; [by inversion 1|by intros ->].
  - destruct s as [|b s]; [done|].
    destruct (N.eqb_spec a b) as [->|Hne].
    + rewrite IH. split; [by intros ->|by inversion 1].
    + split; [done|]. inversion 1. done.
Qed.

Lemma strip_prefix_app (p rest : jsstring) : strip_prefix p (p ++ rest) = Some rest.
Proof. by apply strip_prefix_Some. Qed.

Lemma opt_newline_length (s : jsstring) : length (opt_newline s) <= length s.
Proof. destruct s as [|c s]; simpl; [done|]. destruct (_ =? _)%N; simpl; lia. Qed.

Section RemoveMarker.

Variables (a : N) (p' : jsstring).
Local Abbreviation p := (a :: p').

Lemma remove_marker_fuel_enough (n : nat) : forall m s,
  length s <= n -> length s <= m ->
  remove_marker_fuel n p s = remove_marker_fuel m p s.
Proof.
  induction n as [|n IH]; intros m s Hn Hm.
  - destruct s; [|simpl in Hn; lia]. by destruct m.
  - destruct s as [|c t]; [by destruct m|].
    destruct m as [|m]; [simpl in Hm; lia|].
    cbn [remove_marker_fuel].
    destruct (strip_prefix p (c :: t)) as [rest|] eqn:E.
    + apply strip_prefix_Some in E.
      assert (length rest < length (c :: t)).
      { rewrite E. rewrite length_app. simpl. lia. }
      pose proof (opt_newline_length rest). simpl in *.
      apply IH; lia.
    + f_equal. simpl in *. apply IH; lia.
Qed.

Lemma remove_marker_nil : remove_marker p [] = [].
Proof. done. Qed.

Lemma remove_marker_cons (c : N) (t : jsstring) :
  remove_marker p (c :: t) =
    match strip_prefix p (c :: t) with
    | Some rest => remove_marker p (opt_newline rest)
    | None => c :: remove_marker p t
    end.
Proof.
  unfold remove_marker. cbn [length remove_marker_fuel].
  destruct (strip_prefix p (c :: t)) as [rest|] eqn:E; [|done].
  apply strip_prefix_Some in E.
  assert (length rest < length (c :: t)).
  { rewrite E. rewrite length_app. simpl. lia. }
  pose proof (opt_newline_length rest). simpl in *.
  apply remove_marker_fuel_enough; lia.
Qed.

(** A match at the very start, with the newline that follows it. *)
Lemma remove_marker_match (rest : jsstring) :
  remove_marker p (p ++ rest) = remove_marker p (opt_newline rest).
Proof.
  simpl. rewrite remove_marker_cons.
  change (a :: p' ++ rest) with ((a :: p') ++ rest). by rewrite strip_prefix_app.
Qed.

(** Code units other than the marker's first are copied. *)
Lemma remove_marker_skip (w s : jsstring) :
  Forall (fun c => c <> a) w -> remove_marker p (w ++ s) = w ++ remove_marker p s.
Proof.
  induction 1 as [|c w Hc _ IH]; [done|]. simpl. rewrite remove_marker_cons.
  simpl. destruct (N.eqb_spec a c); [congruence|]. by rewrite IH.
Qed.

Lemma remove_marker_none (w : jsstring) :
  Forall (fun c => c <> a) w -> remove_marker p w = w.
Proof.
  intros H. rewrite <- (app_nil_r w) at 1. rewrite remove_marker_skip by done.
  by rewrite app_nil_r.
Qed.

(** A match cannot reach into a tail whose first unit is not in the marker. *)
Lemma strip_prefix_inside (h : N) (tail : jsstring) : forall (q y rest : jsstring),
  h ∉ q -> strip_prefix q (y ++ h :: tail) = Some rest ->
  exists y', y = q ++ y' /\ rest = y' ++ h :: tail.
Proof.
  induction q as [|b q IH]; intros y rest Hh H; simpl in H.
  - inversion H. by exists y.
  - apply not_elem_of_cons in Hh as [Hb Hq].
    destruct y as [|c y]; simpl in H.
    + destruct (N.eqb_spec b h) as [->|]; done.
    + destruct (N.eqb_spec b c) as [->|]; [|done].
      destruct (IH y rest Hq H) as (y' & -> & ->). by exists y'.
Qed.

Lemma strip_prefix_None_app (y tail : jsstring) :
  strip_prefix p (y ++ tail) = None -> strip_prefix p y = None.
Proof.
  intros H. destruct (strip_prefix p y) as [rest|] eqn:E; [|done].
  apply strip_prefix_Some in E. subst y.
  rewrite <- app_assoc, strip_prefix_app in H. done.
Qed.

(** Scanning [y ++ tail] scans [y] and then the tail, possibly without the
    tail's leading newline (when [y] ends with a match). *)
Lemma remove_marker_tail (h : N) (tail : jsstring) (n : nat) : forall y,
  length y <= n -> h ∉ p ->
  remove_marker p (y ++ h :: tail) = remove_marker p y ++ remove_marker p (h :: tail) \/
  remove_marker p (y ++ h :: tail)
    = remove_marker p y ++ remove_marker p (opt_newline (h :: tail)).
Proof.
  set (A := remove_marker p (h :: tail)).
  set (B := remove_marker p (opt_newline (h :: tail))).
  induction n as [|n IH]; intros y Hn Hh.
  - destruct y; [|simpl in Hn; lia]. by left.
  - destruct y as [|c y]; [by left|].
    change ((c :: y) ++ h :: tail) with (c :: (y ++ h :: tail)).
    rewrite !remove_marker_cons.
    change (c :: (y ++ h :: tail)) with ((c :: y) ++ h :: tail).
    destruct (strip_prefix p ((c :: y) ++ h :: tail)) as [rest|] eqn:E.
    + destruct (strip_prefix_inside h tail p (c :: y) rest Hh E) as (y' & Hy & ->).
      rewrite Hy, strip_prefix_app.
      assert (Hlen : length y' <= n).
      { apply (f_equal length) in Hy. rewrite length_app in Hy.
        simpl in *. lia. }
      destruct y' as [|d y'].
      * right. done.
      * cbn [opt_newline app]. destruct (d =? newline)%N.
        -- apply IH; [simpl in Hlen; lia|done].
        -- apply (IH (d :: y')); done.
    + rewrite (strip_prefix_None_app _ _ E).
      destruct (IH y) as [->| ->]; [simpl in Hn; lia|done|by left|by right].
Qed.

End RemoveMarker.

(** The closing fence right after a text that may itself end in backticks. *)
Lemma remove_fence_closing (n : nat) : forall y,
  length y <= n -> remove_marker fence (y ++ fence) = remove_marker fence y.
Proof.
  induction n as [|n IH]; intros y Hn.
  - destruct y; [|simpl in Hn; lia]. by vm_compute.
  - destruct y as [|c y]; [by vm_compute|].
    change ((c :: y) ++ fence) with (c :: (y ++ fence)).
    unfold fence at 1 3. rewrite !remove_marker_cons. fold fence.
    change (c :: (y ++ fence)) with ((c :: y) ++ fence).
    destruct (strip_prefix fence (c :: y)) as [rest|] eqn:E.
    + apply strip_prefix_Some in E. rewrite E, <- app_assoc, strip_prefix_app.
      assert (Hlen : length rest <= n).
      { apply (f_equal length) in E. rewrite length_app in E. simpl in *. lia. }
      destruct rest as [|d rest]; [by vm_compute|].
      cbn [opt_newline app]. destruct (d =? newline)%N.
      * apply IH. simpl in Hlen. lia.
      * apply (IH (d :: rest)). done.
    + destruct (strip_prefix fence ((c :: y) ++ fence)) as [rest|] eqn:E'.
      * (* the match straddles: [c :: y] is one or two backticks *)
        apply strip_prefix_Some in E'.
        destruct y as [|c2 [|c3 y]]; cbv in E'; inversion E'; subst.
        -- by vm_compute.
        -- by vm_compute.
        -- by vm_compute in E.
      * f_equal. apply IH. simpl in Hn. lia.
Qed.

(** *** Whitespace at both ends *)

Lemma trimStart_blank (w s : jsstring) : blank w -> trimStart (w ++ s) = trimStart s.
Proof. induction 1 as [|c w Hc _ IH]; [done|]. simpl. by rewrite Hc. Qed.

Lemma trimStart_split (s : jsstring) : exists w, blank w /\ s = w ++ trimStart s.
Proof.
  induction s as [|c s (w & Hw & IH)]; [exists []; split; [constructor|done]|]. simpl.
  destruct (is_whitespace c) eqn:E.
  - exists (c :: w). split; [by constructor|]. simpl. by f_equal.
  - exists []. split; [constructor|done].
Qed.

Lemma blank_rev (w : jsstring) : blank w -> blank (rev w).
Proof. apply List.Forall_rev. Qed.

Lemma trimEnd_blank (s w : jsstring) : blank w -> trimEnd (s ++ w) = trimEnd s.
Proof.
  intros Hw. unfold trimEnd. rewrite rev_app_distr, trimStart_blank; [done|].
  by apply blank_rev.
Qed.

Lemma trimEnd_split (s : jsstring) : exists w, blank w /\ s = trimEnd s ++ w.
Proof.
  destruct (trimStart_split (rev s)) as (w & Hw & Hs). exists (rev w). split.
  - by apply blank_rev.
  - unfold trimEnd. rewrite <- rev_app_distr, <- Hs. by rewrite rev_involutive.
Qed.

Lemma trim_blank_l (w s : jsstring) : blank w -> trim (w ++ s) = trim s.
Proof. intros Hw. unfold trim. by rewrite trimStart_blank. Qed.

Lemma trimStart_blank_all (w : jsstring) : blank w -> trimStart w = [].
Proof. intros Hw. rewrite <- (app_nil_r w). by rewrite trimStart_blank. Qed.

Lemma trim_blank_r (s w : jsstring) : blank w -> trim (s ++ w) = trim s.
Proof.
  intros Hw. unfold trim. induction s as [|c s IH]; simpl.
  - by rewrite trimStart_blank_all.
  - destruct (is_whitespace c); [done|].
    change (c :: s ++ w) with ((c :: s) ++ w). by apply trimEnd_blank.
Qed.

Lemma trim_split (s : jsstring) :
  exists w1 w2, blank w1 /\ blank w2 /\ s = w1 ++ trim s ++ w2.
Proof.
  destruct (trimStart_split s) as (w1 & H1 & Hs).
  destruct (trimEnd_split (trimStart s)) as (w2 & H2 & Ht).
  exists w1, w2. unfold trim. by rewrite <- Ht, <- Hs.
Qed.

Lemma trim_fixed (c d : N) (s : jsstring) :
  is_whitespace c = false -> is_whitespace d = false ->
  trim (c :: s ++ [d]) = c :: s ++ [d].
Proof.
  intros Hc Hd. unfold trim. simpl. rewrite Hc. unfold trimEnd.
  change (c :: s ++ [d]) with ((c :: s) ++ [d]). rewrite rev_app_distr. simpl.
  rewrite Hd. simpl. by rewrite rev_app_distr, rev_involutive.
Qed.

Lemma blank_not_backtick (w : jsstring) : blank w -> Forall (fun c => c <> backtick) w.
Proof.
  intros Hw. eapply Forall_impl; [exact Hw|]. intros c Hc ->. by vm_compute in Hc.
Qed.

Lemma blank_opt_newline (w : jsstring) : blank w -> blank (opt_newline w).
Proof.
  intros Hw. destruct w as [|c w]; [done|]. simpl.
  destruct (c =? newline)%N; [by inversion Hw|done].
Qed.

(** Removing a marker that starts with a backtick keeps blank ends blank. *)
Lemma remove_marker_blank_ends (marker p' w1 s w2 : jsstring) :
  marker = backtick :: p' ->
  blank w1 -> blank w2 -> (forall c, c ∈ marker -> is_whitespace c = false) ->
  exists w2', blank w2' /\
    remove_marker marker (w1 ++ s ++ w2) = w1 ++ remove_marker marker s ++ w2'.
Proof.
  intros -> H1 H2 Hp.
  rewrite remove_marker_skip by by apply blank_not_backtick.
  destruct w2 as [|h w2]; [exists []; by rewrite !app_nil_r|].
  assert (Hh : h ∉ backtick :: p').
  { intros Hin. apply Hp in Hin. inversion H2; congruence. }
  destruct (remove_marker_tail backtick p' h w2 (length s) s) as [->| ->]; [done|done| |].
  - exists (h :: w2). split; [done|].
    by rewrite (remove_marker_none _ _ (h :: w2)) by by apply blank_not_backtick.
  - exists (opt_newline (h :: w2)). split; [by apply blank_opt_newline|].
    rewrite (remove_marker_none _ _ (opt_newline (h :: w2))); [done|].
    by apply blank_not_backtick, blank_opt_newline.
Qed.

Lemma markers_not_blank :
  (forall c, c ∈ json_fence -> is_whitespace c = false) /\
  (forall c, c ∈ fence -> is_whitespace c = false).
Proof.
  split; intros c Hc; vm_compute in Hc;
    repeat (apply elem_of_cons in Hc as [->|Hc]; [by vm_compute|]); by inversion Hc.
Qed.

(** [scrub] ignores blank ends, so trimming first changes nothing. *)
Lemma scrub_blank_ends (w1 s w2 : jsstring) :
  blank w1 -> blank w2 -> scrub (w1 ++ s ++ w2) = scrub s.
Proof.
  intros H1 H2. unfold scrub. destruct markers_not_blank as [Hj Hf].
  destruct (remove_marker_blank_ends json_fence _ w1 s w2 eq_refl H1 H2 Hj)
    as (w & Hw & ->).
  destruct (remove_marker_blank_ends fence _ w1 (remove_marker json_fence s) w
              eq_refl H1 Hw Hf) as (w' & Hw' & ->).
  rewrite trim_blank_l by done. rewrite trim_blank_r by done. done.
Qed.

Lemma jsonText_scrub (s : jsstring) : jsonText s = scrub s.
Proof.
  unfold jsonText. destruct (trim_split s) as (w1 & w2 & H1 & H2 & Hs).
  rewrite Hs at 2. by rewrite scrub_blank_ends.
Qed.

(** *** The fenced response *)

Lemma remove_json_fence_tail (y : jsstring) :
  exists z, (z = [newline] ++ fence \/ z = fence) /\
    remove_marker json_fence (y ++ [newline] ++ fence) = remove_marker json_fence y ++ z.
Proof.
  destruct (remove_marker_tail backtick (backtick :: backtick :: lit "json")
              newline fence (length y) y) as [H|H]; [done|apply (bool_decide_unpack _); by vm_compute| |].
  - exists ([newline] ++ fence). split; [by left|]. etrans; [exact H|]. done.
  - exists fence. split; [by right|]. etrans; [exact H|]. done.
Qed.

Lemma remove_fence_tail (y z : jsstring) :
  z = [newline] ++ fence \/ z = fence ->
  exists w, blank w /\ remove_marker fence (y ++ z) = remove_marker fence y ++ w.
Proof.
  intros [-> | ->].
  - destruct (remove_marker_tail backtick [backtick; backtick]
                newline fence (length y) y) as [H|H]; [done|apply (bool_decide_unpack _); by vm_compute| |].
    + exists [newline]. split; [by repeat constructor|]. etrans; [exact H|]. done.
    + exists []. split; [constructor|]. etrans; [exact H|]. done.
  - exists []. split; [constructor|]. rewrite app_nil_r.
    by apply (remove_fence_closing (length y)).
Qed.

Lemma scrub_closing_fence (y : jsstring) :
  scrub (y ++ [newline] ++ fence) = scrub y.
Proof.
  unfold scrub. destruct (remove_json_fence_tail y) as (z & Hz & ->).
  destruct (remove_fence_tail (remove_marker json_fence y) z Hz) as (w & Hw & ->).
  by apply trim_blank_r.
Qed.

(** One scan step at a code unit where the marker does not match. *)
Ltac scan_past :=
  rewrite remove_marker_cons;
  match goal with
  | |- context [strip_prefix ?m ?s] => change (strip_prefix m s) with (@None jsstring)
  end;
  cbv iota.

(** The two blocks in terms of the markers of the scan. *)
Lemma fenced_markers (l : fence_label) (text : jsstring) :
  fenced l text =
    (match l with Labelled => json_fence | Unlabelled => fence end)
    ++ [newline] ++ text ++ [newline] ++ fence.
Proof. by destruct l. Qed.

Lemma scrub_fenced (l : fence_label) (text : jsstring) :
  scrub (fenced l text) = scrub text.
Proof.
  rewrite <- (scrub_closing_fence text), fenced_markers. unfold scrub.
  set (rest := text ++ [newline] ++ fence). destruct l.
  - (* the labelled marker and its newline are one match of the first pattern *)
    f_equal. f_equal.
    exact (remove_marker_match backtick (backtick :: backtick :: lit "json")
             ([newline] ++ rest)).
  - (* the bare marker survives the first pattern and is one match of the second *)
    assert (H1 : remove_marker json_fence (fence ++ [newline] ++ rest)
                 = fence ++ [newline] ++ remove_marker json_fence rest).
    { unfold json_fence, fence. cbn [app]. by do 4 scan_past. }
    rewrite H1. f_equal.
    exact (remove_marker_match backtick [backtick; backtick]
             ([newline] ++ remove_marker json_fence rest)).
Qed.

Lemma trim_fenced (l : fence_label) (text : jsstring) :
  trim (fenced l text) = fenced l text.
Proof.
  assert (H : exists s, fenced l text = backtick :: s ++ [backtick]).
  { rewrite fenced_markers. destruct l.
    - exists ([backtick; backtick] ++ lit "json" ++ [newline] ++ text
              ++ [newline; backtick; backtick]).
      unfold json_fence, fence. simpl. by rewrite <- !app_assoc.
    - exists ([backtick; backtick] ++ [newline] ++ text ++ [newline; backtick; backtick]).
      unfold fence. simpl. by rewrite <- !app_assoc. }
  destruct H as (s & ->). by apply trim_fixed.
Qed.

Lemma jsonText_fenced (l : fence_label) (text : jsstring) :
  jsonText (fenced l text) = jsonText text.
Proof.
  unfold jsonText at 1. by rewrite trim_fenced, scrub_fenced, jsonText_scrub.
Qed.

Lemma jsonText_plain (text : jsstring) :
  Forall (fun c => c <> backtick) text -> jsonText text = trim text.
Proof.
  intros H. rewrite jsonText_scrub. unfold scrub, json_fence, fence. cbn [app].
  by rewrite !(remove_marker_none backtick _ text H).
Qed.

(** *** A block with another info string *)

(** The first pattern wants the lower-case letters [json] after the marker:
    the block that opens with the marker and [JSON] goes through it
    unchanged, the second pattern removes the two markers, and the info
    string stays at the head of the text. *)
Lemma jsonText_upper_case_label (text : jsstring) :
  Forall (fun c => c <> backtick) text ->
  jsonText (fenced_with (lit "JSON") text) = trim (lit "JSON" ++ [newline] ++ text).
Proof.
  intros Htext. rewrite jsonText_scrub.
  change (fenced_with (lit "JSON") text)
    with ((fence ++ lit "JSON" ++ [newline] ++ text) ++ [newline] ++ fence).
  rewrite scrub_closing_fence. unfold scrub.
  assert (Hrest : Forall (fun c => c <> backtick) (lit "JSON" ++ [newline] ++ text)).
  { apply Forall_app. split; [by repeat constructor|].
    apply Forall_app. split; [by repeat constructor|done]. }
  assert (H1 : remove_marker json_fence (fence ++ lit "JSON" ++ [newline] ++ text)
               = fence ++ lit "JSON" ++ [newline] ++ text).
  { unfold json_fence, fence. cbn [app]. do 3 scan_past.
    by rewrite (remove_marker_none backtick _ _ Hrest). }
  rewrite H1. unfold fence.
  rewrite (remove_marker_match backtick [backtick; backtick]
             (lit "JSON" ++ [newline] ++ text)).
  change (opt_newline (lit "JSON" ++ [newline] ++ text))
    with (lit "JSON" ++ [newline] ++ text).
  by rewrite (remove_marker_none backtick _ _ Hrest).
Qed.

End Fences.

(** ** The statistics of reachable stores *)

Lemma consistent_empty : consistent ∅.
Proof. intros id q H. by rewrite lookup_empty in H. Qed.

Section Reachable.

Variable JSON_parse : jsstring -> option value.

Variable Number_toString : float -> jsstring.

(** Every request preserves the invariant of the data model. *)
Lemma step_consistent (r : request) (st : store) :
  consistent st -> consistent (snd (step JSON_parse Number_toString r st)).
Proof.
  intros Hst. destruct r as [req c env|req ts|id']; simpl; [| |done].
  - pose proof (generate_quiz_store JSON_parse Number_toString req c env st) as Hgen.
    destruct (generate_quiz JSON_parse Number_toString req c env st) as [resp st'].
    simpl in *. destruct Hgen as [->|[items ->]]; [done|].
    intros id q Hq. destruct (decide (new_quiz_id env = id)) as [<-|Hne].
    + rewrite lookup_insert_eq in Hq. inversion Hq; subst. constructor.
    + rewrite lookup_insert_ne in Hq by done. by apply (Hst id).
  - pose proof (submit_quiz_store Number_toString req ts st) as Hsub.
    destruct (submit_quiz Number_toString req ts st) as [resp st']. simpl in *.
    destruct Hsub as [[-> _]|(id & q & sub & _ & Hq & -> & Hsub & _)]; [done|].
    intros id0 q0 Hq0. destruct (decide (id = id0)) as [<-|Hne].
    + rewrite lookup_insert_eq in Hq0. inversion Hq0; subst q0. simpl.
      apply Forall_app. split.
      * eapply Forall_impl; [exact (Hst _ _ Hq)|]. intros x Hx. exact Hx.
      * constructor; [exact Hsub|constructor].
    + rewrite lookup_insert_ne in Hq0 by done. by apply (Hst id0).
Qed.

(** The invariant holds in every store the service can reach. *)
Lemma reachable_consistent (rs : list request) : forall st,
  consistent st -> consistent (run JSON_parse Number_toString rs st).
Proof.
  induction rs as [|r rs IH]; intros st Hst; [done|].
  simpl. apply IH. by apply step_consistent.
Qed.

End Reachable.

Lemma consistent_scores (q : quiz) (subs : list submission) :
  questions q <> [] ->
  (Z.of_nat (length (questions q)) < 2 ^ 32)%Z ->
  Forall (consistent_submission q) subs ->
  exists zs, map score subs = map Int zs /\ Forall (fun z => (0 <= z <= 100)%Z) zs.
Proof.
  intros Hne Hlen. induction 1 as [|s subs (Ht & Hc & Hs) _ (zs & Hzs & Hall)].
  - by exists [].
  - destruct (percentage_range (correctCount s) (totalQuestions s)) as (z & Hz & Hr).
    + rewrite Ht. destruct (questions q); [done|simpl; lia].
    + done.
    + by rewrite Ht.
    + exists (z :: zs). simpl. rewrite Hs, Hz, Hzs. split; [done|by constructor].
Qed.

(** C5.  In a store that satisfies the invariant of the data model (as every
    reachable store does, [reachable_consistent]), quiz-results for a stored
    quiz with at least one question reports the number of submissions, the
    mean of their scores rounded to the nearest integer (halves upwards),
    their maximum and their minimum, each being 0 when there is no
    submission.  The scores are integers between 0 and 100; arrays hold
    fewer than 2^32 elements. *)
Theorem results_statistics (st : store) id q :
  consistent st ->
  st !! id = Some q ->
  questions q <> [] ->
  (Z.of_nat (length (questions q)) < 2 ^ 32)%Z ->
  (Z.of_nat (length (submissions q)) < 2 ^ 32)%Z ->
  exists zs view,
    map score (submissions q) = map Int zs /\
    Forall (fun z => (0 <= z <= 100)%Z) zs /\
    quiz_results id st = Json view /\
    v_submissions view = submissions q /\
    stats view =
      {| totalSubmissions := length (submissions q);
         averageScore := Int (rounded_mean zs);
         highestScore := Int (highest zs);
         lowestScore := Int (lowest zs) |} /\
    (zs = [] -> rounded_mean zs = 0%Z /\ highest zs = 0%Z /\ lowest zs = 0%Z) /\
    (zs <> [] ->
     rounded_mean zs
       = ((2 * total zs + Z.of_nat (length zs)) / (2 * Z.of_nat (length zs)))%Z /\
     In (highest zs) zs /\ Forall (fun z => (z <= highest zs)%Z) zs /\
     In (lowest zs) zs /\ Forall (fun z => (lowest zs <= z)%Z) zs).
Proof.
  intros Hst Hq Hne Hlen Hsubs.
  destruct (consistent_scores q (submissions q) Hne Hlen (Hst _ _ Hq))
    as (zs & Hzs & Hrange).
  exists zs. unfold quiz_results. rewrite (quizzes_get_own _ _ _ Hq).
  eexists. split; [done|]. split; [done|]. split; [reflexivity|]. simpl.
  split; [done|]. split; [|split].
  - apply compute_stats_integers; [done|done|].
    apply (f_equal length) in Hzs. rewrite !length_map in Hzs. by rewrite <- Hzs.
  - by intros ->.
  - intros Hzne. split; [by destruct zs|].
    destruct (highest_is_maximum zs Hzne), (lowest_is_minimum zs Hzne). done.
Qed.

Lemma scenario_F_consistent : consistent scenario_F_store.
Proof.
  intros id q Hq. unfold scenario_F_store in Hq.
  destruct (decide (sample_id = id)) as [<-|Hne].
  - rewrite lookup_insert_eq in Hq. inversion Hq; subst.
    repeat constructor; by vm_compute.
  - by rewrite lookup_insert_ne, lookup_empty in Hq.
Qed.

(** Scenario F: two submissions scored 80 and 60 give the mean 70, the
    maximum 80 and the minimum 60. *)
Lemma scenario_F :
  exists view,
    quiz_results sample_id scenario_F_store = Json view /\
    stats view = {| totalSubmissions := 2; averageScore := Int 70;
                    highestScore := Int 80; lowestScore := Int 60 |}.
Proof.
  destruct (results_statistics scenario_F_store sample_id scenario_F_quiz
              scenario_F_consistent)
    as (zs & view & Hzs & _ & Hview & _ & Hstats & _).
  - apply lookup_insert_eq.
  - done.
  - simpl. lia.
  - simpl. lia.
  - exists view. split; [exact Hview|]. rewrite Hstats.
    destruct zs as [|a [|b [|]]]; try done.
    simpl in Hzs. by inversion Hzs.
Defined.

(** A submission to a quiz without questions stores the score [NaN], and
    the three statistics of such a quiz are [NaN]. *)
Lemma statistics_of_NaN_scores :
  compute_stats [{| studentName := VStr (lit "Alice"); answers := VArr []; score := NaN;
                    correctCount := 0; totalQuestions := 0;
                    submittedAt := lit "2023-11-14T22:20:00.000Z" |}]
  = {| totalSubmissions := 1; averageScore := NaN; highestScore := NaN;
       lowestScore := NaN |}.
Proof. reflexivity. Qed.

(** ** Generation from a fenced response *)

Lemma jsonText_padded_fence (l : fence_label) (text before after : jsstring) :
  JsString.blank before -> JsString.blank after ->
  JsString.jsonText (before ++ fenced l text ++ after) = JsString.jsonText text.
Proof.
  intros Hb Ha.
  by rewrite jsonText_scrub, scrub_blank_ends, scrub_fenced, jsonText_scrub.
Qed.

(** A response wrapped in a fenced block (the opening marker, with or
    without the [json] label, on its own line and the closing marker on its
    own line, possibly with whitespace around the block) hands [JSON.parse]
    the same text as the unwrapped response does, so generate-quiz answers
    both alike and leaves the same store.  When the wrapped text holds no
    backtick, the text parsed is the text itself, trimmed. *)
Theorem fenced_response_parses_like_plain (JSON_parse : jsstring -> option value)
    (Number_toString : float -> jsstring)
    (l : fence_label) (text before after : jsstring) (req : generate_request)
    (env : generate_env) (st : store) :
  JsString.blank before -> JsString.blank after ->
  JsString.jsonText (before ++ fenced l text ++ after) = JsString.jsonText text
  /\ generate_quiz JSON_parse Number_toString req
       (Text (before ++ fenced l text ++ after)) env st
     = generate_quiz JSON_parse Number_toString req (Text text) env st
  /\ (Forall (fun c => c <> JsString.backtick) text ->
      JsString.jsonText (before ++ fenced l text ++ after) = JsString.trim text).
Proof.
  intros Hb Ha. pose proof (jsonText_padded_fence l text before after Hb Ha) as H.
  split; [exact H|]. split.
  - unfold generate_quiz. by rewrite H.
  - intros Hplain. rewrite H. by apply jsonText_plain.
Qed.

(** Scenario D with the response [[]] in a labelled fence followed by a
    newline. *)
Lemma fenced_response_example :
  JsString.jsonText ([] ++ fenced Labelled (lit "[]") ++ [JsString.newline]) = lit "[]" /\
  generate_quiz sample_parse sample_number_text sample_request
    (Text ([] ++ fenced Labelled (lit "[]") ++ [JsString.newline])) sample_env ∅
  = (Json {| quizId := sample_id; public_questions := [] |},
     <[ sample_id := quiz_with [] [] ]> ∅).
Proof.
  destruct (fenced_response_parses_like_plain sample_parse sample_number_text Labelled
              (lit "[]") [] [JsString.newline] sample_request sample_env ∅)
    as (H1 & H2 & H3).
  - constructor.
  - by repeat constructor.
  - split.
    + rewrite H3; [by vm_compute|]. apply (bool_decide_unpack _). by vm_compute.
    + rewrite H2. vm_compute. reflexivity.
Defined.

(** C9.  The scrubbing of line 224 knows the block that opens with three
    backticks and the lower-case letters [json], and the block without a
    label.  A block that opens with three backticks and [JSON] is a Markdown
    code block just the same, but the first pattern is case-sensitive: the
    label stays in front of the text, [JSON.parse] rejects what it is handed
    (no JSON text starts with the letter J), and a well-formed request is
    answered with the invalid-format error, the store left as it was,
    whatever the wrapped text. *)
Theorem upper_case_label_is_not_stripped (JSON_parse : jsstring -> option value)
    (Number_toString : float -> jsstring) (text : jsstring) (req : generate_request)
    (env : generate_env) (st : store) :
  well_formed_generate req ->
  printable Number_toString (g_topic req) ->
  Forall (fun c => c <> JsString.backtick) text ->
  JSON_parse (JsString.trim (lit "JSON" ++ [JsString.newline] ++ text)) = None ->
  JsString.jsonText (fenced_with (lit "JSON") text)
    = JsString.trim (lit "JSON" ++ [JsString.newline] ++ text)
  /\ generate_quiz JSON_parse Number_toString req (Text (fenced_with (lit "JSON") text))
       env st
     = (Error 500 invalid_format, st).
Proof.
  intros Hreq Htopic Htext Hparse.
  pose proof (jsonText_upper_case_label text Htext) as H. split; [exact H|].
  rewrite generate_quiz_valid by done. by rewrite H, Hparse.
Qed.

(** ** Examples of the generation properties *)

Lemma sample_request_well_formed : well_formed_generate sample_request.
Proof. by split. Qed.

(** The response [[]], which alone gives a quiz, in a block labelled
    [JSON]. *)
Lemma upper_case_label_example :
  status (fst (generate_quiz sample_parse sample_number_text sample_request
                 (Text (lit "[]")) sample_env ∅)) = 200 /\
  JsString.jsonText (fenced_with (lit "JSON") (lit "[]"))
    = JsString.trim (lit "JSON" ++ [JsString.newline] ++ lit "[]") /\
  generate_quiz sample_parse sample_number_text sample_request
    (Text (fenced_with (lit "JSON") (lit "[]"))) sample_env ∅
  = (Error 500 invalid_format, ∅).
Proof.
  split; [by vm_compute|].
  apply (upper_case_label_is_not_stripped sample_parse sample_number_text (lit "[]")
           sample_request sample_env ∅ sample_request_well_formed).
  - apply printable_string.
  - apply (bool_decide_unpack _). by vm_compute.
  - by vm_compute.
Defined.

(** Scenario E: the collaborator answers with a JSON object. *)
Lemma object_response_example :
  generate_quiz sample_parse sample_number_text sample_request (Text (lit "{}")) sample_env
    scenario_B_store
  = (Error 500 invalid_format, scenario_B_store).
Proof.
  apply (invalid_response_creates_no_quiz sample_parse sample_number_text sample_request
           (lit "{}") sample_env scenario_B_store sample_request_well_formed).
  - apply printable_string.
  - right. exists (VObj []). split; [by vm_compute|]. intros items. discriminate.
Defined.

Lemma keyless_quiz_example :
  snd (generate_quiz sample_parse sample_number_text sample_request
         (Text keyless_array_text) sample_env ∅)
  = <[ sample_id := quiz_with [VObj [(lit "correctAnswer", number_of_nat 7)]] [] ]> ∅
  /\ status (fst (generate_quiz sample_parse sample_number_text sample_request
                    (Text keyless_array_text) sample_env ∅)) = 200.
Proof.
  destruct (any_array_is_persisted sample_parse sample_number_text sample_request
              keyless_array_text sample_env ∅
              [VObj [(lit "correctAnswer", number_of_nat 7)]]
              sample_request_well_formed) as [H1 H2];
    [apply printable_string|by vm_compute|].
  split; [exact H1|]. apply H2; [|apply printable_string]. repeat constructor; done.
Defined.

Lemma keyless_payload_example :
  exists q,
    (<[ sample_id := quiz_with [VObj [(lit "correctAnswer", number_of_nat 7)]] [] ]>
       (∅ : store)) !! quizId keyless_payload = Some q /\
    length (public_questions keyless_payload) = length (questions q) /\
    forall i question,
      questions q !! i = Some question ->
      exists text options,
        public_questions keyless_payload !! i =
          Some (VObj [(lit "id", number_of_nat i); (lit "question", text);
                      (lit "options", options)]) /\
        field question (lit "question") = Some text /\
        field question (lit "options") = Some options /\
        own_property (lit "correctAnswer")
          [(lit "id", number_of_nat i); (lit "question", text);
           (lit "options", options)] = VUndefined.
Proof.
  apply (public_questions_hide_the_key sample_parse sample_number_text sample_request
           (Text keyless_array_text) sample_env ∅ keyless_payload).
  vm_compute. reflexivity.
Defined.

Lemma sample_run_example :
  exists q' added view,
    run sample_parse sample_number_text sample_run scenario_B_store !! sample_id
      = Some q' /\
    questions q' = map sample_question [0; 1; 1; 3; 2] /\
    submissions q' = [] ++ added /\
    2 <= length added /\
    length added <= 2 /\
    quiz_results sample_id (run sample_parse sample_number_text sample_run scenario_B_store)
      = Json view /\
    totalSubmissions (stats view) = 0 + length added.
Proof.
  apply (submissions_are_append_only sample_parse sample_number_text sample_run
           scenario_B_store sample_id (quiz_with (map sample_question [0; 1; 1; 3; 2]) [])).
  - by vm_compute.
  - repeat constructor. by vm_compute.
Defined.

(** The submission of scenario B under a name that cannot be logged. *)
Lemma unlogged_submission_example :
  exists sub view,
    submit_quiz sample_number_text
      {| s_quizId := VStr sample_id; s_studentName := unprintable_name;
         s_answers := numbers [0; 1; 2; 3; 0] |} (lit "t") scenario_B_store =
      (Error 500 (lit "Quiz submission failed"),
       <[ sample_id := quiz_with (map sample_question [0; 1; 1; 3; 2]) [sub] ]> ∅) /\
    studentName sub = unprintable_name /\
    quiz_results sample_id
      (snd (submit_quiz sample_number_text
              {| s_quizId := VStr sample_id; s_studentName := unprintable_name;
                 s_answers := numbers [0; 1; 2; 3; 0] |} (lit "t") scenario_B_store))
      = Json view /\
    totalSubmissions (stats view) = 1.
Proof.
  destruct (unlogged_submission_is_recorded sample_number_text
              {| s_quizId := VStr sample_id; s_studentName := unprintable_name;
                 s_answers := numbers [0; 1; 2; 3; 0] |} (lit "t") scenario_B_store
              sample_id (quiz_with (map sample_question [0; 1; 1; 3; 2]) []))
    as (sub & view & Hrun & Hname & Hview & Hn).
  - by vm_compute.
  - reflexivity.
  - by vm_compute.
  - by repeat constructor.
  - reflexivity.
  - exists sub, view. split; [|done]. rewrite Hrun. by f_equal.
Defined.

(** ** Further examples *)

Lemma percentage_exact_example : percentage 3 5 = Int 60.
Proof. apply (percentage_exact_up_to_39 3 5); lia. Defined.

Lemma unknown_quiz_example :
  submit_quiz sample_number_text (submit_to (lit "quiz_0_missing") (numbers [0])) (lit "t")
    scenario_B_store
  = (Error 404 (lit "Quiz not found"), scenario_B_store).
Proof.
  apply (unknown_quiz_not_found sample_number_text
           (submit_to (lit "quiz_0_missing") (numbers [0])) (lit "t") scenario_B_store
           (lit "quiz_0_missing")); by vm_compute.
Defined.

Lemma null_question_example :
  submit_quiz sample_number_text (submit_to sample_id (numbers [0])) (lit "t")
    null_quiz_store
  = (Error 500 (lit "Quiz submission failed"), null_quiz_store).
Proof.
  apply (null_question_fails_submission sample_number_text
           (submit_to sample_id (numbers [0])) (lit "t") null_quiz_store sample_id
           (quiz_with [VNull] [])).
  - by vm_compute.
  - reflexivity.
  - by vm_compute.
  - simpl. apply list_elem_of_here.
Defined.

Lemma scenario_B_consistent : consistent scenario_B_store.
Proof.
  intros id q Hq. unfold scenario_B_store in Hq.
  destruct (decide (sample_id = id)) as [<-|Hne].
  - rewrite lookup_insert_eq in Hq. inversion Hq; subst. constructor.
  - by rewrite lookup_insert_ne, lookup_empty in Hq.
Qed.

(** The run [sample_run] from the store of scenario B records two
    submissions, and the store it ends in satisfies the invariant. *)
Lemma reachable_example :
  (exists q s1 s2,
     run sample_parse sample_number_text sample_run scenario_B_store !! sample_id
       = Some q /\
     submissions q = [s1; s2] /\ score s1 = Int 60 /\ score s2 = Int 0) /\
  consistent (run sample_parse sample_number_text sample_run scenario_B_store).
Proof.
  split; [eexists _, _, _; split; [vm_compute; reflexivity|by vm_compute]|].
  exact (reachable_consistent sample_parse sample_number_text sample_run scenario_B_store
           scenario_B_consistent).
Defined.



(** ** Scores at the two ends of the scale *)

Lemma percentage_all (n : nat) : 1 <= n -> percentage n n = Int 100.
Proof.
  intros Hn. unfold percentage, F64.div.
  set (b := Z.of_nat n). assert (Hb : (0 < b)%Z) by (subst b; lia). clearbody b.
  destruct (b =? 0)%Z eqn:E0; [apply Z.eqb_eq in E0; lia|].
  replace (b <? 0)%Z with false by (symmetry; apply Z.ltb_ge; lia).
  rewrite Z.abs_eq by lia. unfold F64.signed_round. rewrite E0. simpl xorb.
  assert (Hr : F64.round_ratio b b = ((2 ^ 52)%Z, (-52)%Z)).
  { assert (Hsc : F64.scaled b b (-52) = ((b * 2 ^ 52)%Z, b)) by reflexivity.
    unfold F64.round_ratio.
    replace (Z.log2 b - Z.log2 b - 52)%Z with (-52)%Z by lia.
    cbv zeta. rewrite Hsc, Z.ltb_irrefl, Hsc.
    unfold F64.div_nearest_even.
    rewrite (Z.mul_comm b), Z.div_mul, Z.mod_mul by lia.
    replace (2 * 0 <? b)%Z with true by (symmetry; apply Z.ltb_lt; lia).
    reflexivity. }
  rewrite Hr. by vm_compute.
Qed.

Lemma percentage_none (n : nat) : 1 <= n -> percentage 0 n = Int 0.
Proof.
  intros Hn. unfold percentage, F64.div.
  destruct (Z.of_nat n =? 0)%Z eqn:E0; [apply Z.eqb_eq in E0; lia|].
  reflexivity.
Qed.

(** No question at all: 0 / 0. *)
Lemma percentage_of_nothing : percentage 0 0 = NaN.
Proof. reflexivity. Qed.

Section Marks.

Variable Number_toString : float -> jsstring.

(** An accepted submission to a quiz with at least one question scores
    exactly 100 when every question is marked correct and exactly 0 when none
    is, however many questions there are: the two roundings of line 293 are
    exact at both ends of the scale. *)
Theorem full_and_zero_marks (req : submit_request) (ts : jsstring) (st st' : store) payload :
  submit_quiz Number_toString req ts st = (Json payload, st') ->
  1 <= r_totalQuestions payload ->
  (r_correctCount payload = r_totalQuestions payload -> r_score payload = Int 100) /\
  (r_correctCount payload = 0 -> r_score payload = Int 0).
Proof.
  intros H Hn.
  destruct (submitted_score _ _ _ _ _ _ H)
    as (id & q & q' & _ & _ & _ & _ & _ & _ & _ & Hs & _).
  rewrite Hs. split; intros ->; [by apply percentage_all|by apply percentage_none].
Qed.

(** The score of an accepted submission to a quiz with at least one question
    is an integer between 0 and 100. *)
Theorem accepted_score_is_a_percentage (req : submit_request) (ts : jsstring)
    (st st' : store) payload :
  submit_quiz Number_toString req ts st = (Json payload, st') ->
  1 <= r_totalQuestions payload ->
  (Z.of_nat (r_totalQuestions payload) < 2 ^ 32)%Z ->
  exists z, r_score payload = Int z /\ (0 <= z <= 100)%Z.
Proof.
  intros H Hn Hlen.
  destruct (submitted_score _ _ _ _ _ _ H)
    as (id & q & q' & _ & _ & _ & _ & _ & _ & Hle & Hs & _).
  rewrite Hs. by apply percentage_range.
Qed.

End Marks.

(** ** Questions without an answer key *)

Lemma count_correct_all (f : nat -> value -> option graded) (l : list value) :
  forall k rs,
    map_from f k l = Some rs ->
    (forall i x r, f i x = Some r -> In x l -> isCorrect r = true) ->
    count_correct rs = length l.
Proof.
  induction l as [|x l IH]; intros k rs H Hall; simpl in H.
  - by inversion H.
  - destruct (f k x) as [r|] eqn:Er; [|done].
    destruct (map_from f (S k) l) as [rs'|] eqn:E; [|done].
    inversion H; subst. unfold count_correct. simpl.
    rewrite (Hall k x r Er) by by left. simpl. f_equal.
    apply (IH (S k)); [done|]. intros i y r' Hr' Hy. apply (Hall i y r' Hr'). by right.
Qed.

Lemma count_correct_none (f : nat -> value -> option graded) (l : list value) :
  forall k rs,
    map_from f k l = Some rs ->
    (forall i x r, f i x = Some r -> In x l -> isCorrect r = false) ->
    count_correct rs = 0 /\ Forall (fun r => isCorrect r = false) rs.
Proof.
  induction l as [|x l IH]; intros k rs H Hall; simpl in H.
  - inversion H. by split; [|constructor].
  - destruct (f k x) as [r|] eqn:Er; [|done].
    destruct (map_from f (S k) l) as [rs'|] eqn:E; [|done].
    inversion H; subst. unfold count_correct. simpl.
    rewrite (Hall k x r Er) by by left.
    destruct (IH (S k) rs' E) as [Hc Hf].
    { intros i y r' Hr' Hy. apply (Hall i y r' Hr'). by right. }
    split; [exact Hc|]. constructor; [|done]. apply (Hall k x r Er). by left.
Qed.

Section Keys.

Variable Number_toString : float -> jsstring.

(** Questions stored without a [correctAnswer] have the key [undefined], and
    an answer that is missing reads [undefined] too: a submission that answers
    nothing is marked correct on every such question and scores 100, or
    [NaN] when the quiz has no question at all. *)
Theorem keyless_questions_reward_missing_answers (req : submit_request) (ts : jsstring)
    (st : store) id q :
  well_formed_submit req ->
  to_string Number_toString (s_quizId req) = Some id ->
  printable Number_toString (s_studentName req) ->
  st !! id = Some q ->
  Forall (fun x => field x (lit "correctAnswer") = Some VUndefined) (questions q) ->
  (forall i, index (s_answers req) i = VUndefined) ->
  exists payload st',
    submit_quiz Number_toString req ts st = (Json payload, st') /\
    r_correctCount payload = length (questions q) /\
    Forall (fun r => isCorrect r = true) (results payload) /\
    r_score payload = (if decide (questions q = []) then NaN else Int 100).
Proof.
  intros Hreq Hid [name Hname] Hq Hkeys Hmissing.
  rewrite (submit_quiz_valid _ _ _ _ id) by done.
  rewrite (quizzes_get_own _ _ _ Hq).
  destruct (map_from_total (grade (s_answers req)) (questions q) 0) as [rs Hrs].
  { eapply Forall_impl; [exact Hkeys|]. intros x Hx i. unfold grade. rewrite Hx.
    destruct x; try done; by eexists. }
  rewrite Hrs. cbv zeta. rewrite Hname. eexists _, _. split; [reflexivity|]. simpl.
  assert (Hright : forall i x r, grade (s_answers req) i x = Some r ->
                                In x (questions q) -> isCorrect r = true).
  { intros i x r Hr Hx.
    rewrite Forall_forall in Hkeys. apply list_elem_of_In in Hx.
    specialize (Hkeys x Hx). unfold grade in Hr. rewrite Hkeys in Hr.
    destruct (field x (lit "question")); [|done]. inversion Hr; subst. simpl.
    by rewrite Hmissing. }
  assert (Hcount : count_correct rs = length (questions q))
    by by apply (count_correct_all _ _ 0 rs Hrs).
  split; [done|]. split.
  - clear Hcount. revert Hrs Hright. generalize 0 at 1. generalize (questions q) rs.
    clear. intros l. induction l as [|x l IH]; intros rs k H Hall; simpl in H.
    + inversion H. constructor.
    + destruct (grade _ k x) as [r|] eqn:Er; [|done].
      destruct (map_from _ (S k) l) as [rs'|] eqn:E; [|done].
      inversion H; subst. constructor.
      * apply (Hall k x r Er). by left.
      * apply (IH rs' (S k) E). intros i y r' Hr' Hy. apply (Hall i y r' Hr'). by right.
  - rewrite Hcount. destruct (decide (questions q = [])) as [->|Hne]; [done|].
    apply percentage_all. destruct (questions q); [done|simpl; lia].
Qed.

(** The comparison of line 281 is strict: when every answer key is a number
    and no answer read from the request is a number (answers sent as strings,
    or as one string), every question is marked incorrect and the score
    is 0, or [NaN] when the quiz has no question at all. *)
Theorem answers_of_another_type_score_zero (req : submit_request) (ts : jsstring)
    (st : store) id q :
  well_formed_submit req ->
  to_string Number_toString (s_quizId req) = Some id ->
  printable Number_toString (s_studentName req) ->
  st !! id = Some q ->
  Forall (fun x => exists n, field x (lit "correctAnswer") = Some (VNum n)) (questions q) ->
  (forall i n, index (s_answers req) i <> VNum n) ->
  exists payload st',
    submit_quiz Number_toString req ts st = (Json payload, st') /\
    r_correctCount payload = 0 /\
    Forall (fun r => isCorrect r = false) (results payload) /\
    r_score payload = (if decide (questions q = []) then NaN else Int 0).
Proof.
  intros Hreq Hid [name Hname] Hq Hkeys Hother.
  rewrite (submit_quiz_valid _ _ _ _ id) by done.
  rewrite (quizzes_get_own _ _ _ Hq).
  destruct (map_from_total (grade (s_answers req)) (questions q) 0) as [rs Hrs].
  { eapply Forall_impl; [exact Hkeys|]. intros x [n Hx] i. unfold grade. rewrite Hx.
    destruct x; try done; by eexists. }
  rewrite Hrs. cbv zeta. rewrite Hname. eexists _, _. split; [reflexivity|]. simpl.
  assert (Hwrong : forall i x r, grade (s_answers req) i x = Some r ->
                                 In x (questions q) -> isCorrect r = false).
  { intros i x r Hr Hx.
    rewrite Forall_forall in Hkeys. apply list_elem_of_In in Hx.
    destruct (Hkeys x Hx) as [n Hn]. unfold grade in Hr. rewrite Hn in Hr.
    destruct (field x (lit "question")); [|done]. inversion Hr; subst. simpl.
    specialize (Hother i). by destruct (index (s_answers req) i); try done;
      exfalso; eapply Hother. }
  destruct (count_correct_none _ _ 0 rs Hrs Hwrong) as [Hcount Hall].
  split; [done|]. split; [done|]. rewrite Hcount.
  destruct (decide (questions q = [])) as [->|Hne]; [done|].
  apply percentage_none. destruct (questions q); [done|simpl; lia].
Qed.

End Keys.

(** ** [NaN] in the statistics *)

Lemma js_add_NaN_r (a : num) : js_add a NaN = NaN.
Proof. by destruct a. Qed.

Lemma js_max_NaN_r (a : num) : js_max a NaN = NaN.
Proof. by destruct a as [|[]|]. Qed.

Lemma js_min_NaN_r (a : num) : js_min a NaN = NaN.
Proof. by destruct a as [|[]|]. Qed.

Lemma fold_NaN (f : num -> num -> num) (l : list num) :
  (forall x, f NaN x = NaN) -> (forall a, f a NaN = NaN) ->
  forall a, In NaN l -> fold_left f l a = NaN.
Proof.
  intros Hl Hr.
  assert (Hfix : forall l', fold_left f l' NaN = NaN).
  { induction l' as [|x l' IH]; simpl; [done|]. by rewrite Hl. }
  induction l as [|x l IH]; intros a Hin; [done|]. simpl.
  destruct Hin as [->|Hin]; [by rewrite Hr|by apply IH].
Qed.

Lemma NaN_poisons_statistics (subs : list submission) :
  In NaN (map score subs) ->
  averageScore (compute_stats subs) = NaN /\
  highestScore (compute_stats subs) = NaN /\
  lowestScore (compute_stats subs) = NaN.
Proof.
  intros Hin. unfold compute_stats. simpl.
  destruct (map score subs) as [|x l] eqn:E; [done|]. simpl length. simpl negb. cbv iota.
  unfold sum_scores, Math_max, Math_min.
  rewrite (fold_NaN js_add), (fold_NaN js_max), (fold_NaN js_min);
    try done; try (intros; by rewrite ?js_add_NaN_r, ?js_max_NaN_r, ?js_min_NaN_r).
Qed.

(** After any well-formed submission to a quiz without questions, the
    results of that quiz count the submission and report [NaN] for the
    average, the highest and the lowest score, whatever was recorded before:
    one [NaN] score absorbs the sum, [Math.max] and [Math.min]. *)
Theorem submission_to_empty_quiz_poisons_statistics
    (Number_toString : float -> jsstring) (req : submit_request)
    (ts : jsstring) (st : store) id q :
  well_formed_submit req ->
  to_string Number_toString (s_quizId req) = Some id ->
  st !! id = Some q ->
  questions q = [] ->
  exists view,
    quiz_results id (snd (submit_quiz Number_toString req ts st)) = Json view /\
    totalSubmissions (stats view) = S (length (submissions q)) /\
    averageScore (stats view) = NaN /\
    highestScore (stats view) = NaN /\
    lowestScore (stats view) = NaN.
Proof.
  intros Hreq Hid Hq Hempty. rewrite (submit_quiz_valid _ _ _ _ id) by done.
  rewrite (quizzes_get_own _ _ _ Hq), Hempty. simpl.
  unfold quiz_results, quizzes_get.
  destruct (to_string Number_toString (s_studentName req)); simpl;
    rewrite lookup_insert_eq; (eexists; split; [reflexivity|]);
    cbn [stats submissions]; (split;
      [unfold compute_stats; cbn [totalSubmissions]; rewrite length_app; simpl; lia
      |apply NaN_poisons_statistics; rewrite map_app; apply in_or_app; right; by left]).
Qed.

(** ** Generation that fails after the quiz is stored *)

Section GenerationEdges.

Variable JSON_parse : jsstring -> option value.

Variable Number_toString : float -> jsstring.

(** A parsed array that holds [null] is stored as a quiz before the public
    questions are built; building them throws, so the request is answered
    500 although the quiz stays in the store. *)
Theorem null_question_is_stored_with_an_error (req : generate_request) (content : jsstring)
    (env : generate_env) (st : store) items :
  well_formed_generate req ->
  printable Number_toString (g_topic req) ->
  JSON_parse (JsString.jsonText content) = Some (VArr items) ->
  VNull ∈ items ->
  generate_quiz JSON_parse Number_toString req (Text content) env st =
    (Error 500 (lit "Quiz generation failed"),
     <[ new_quiz_id env := {| roomName := g_roomName req;
                              topic := g_topic req;
                              questions := items;
                              submissions := [];
                              createdAt := g_timestamp env |} ]> st).
Proof.
  intros Hreq Htopic Hparse Hnull. rewrite generate_quiz_valid by done. rewrite Hparse.
  cbv zeta. rewrite (map_from_throws public_question items 0).
  - by destruct (to_string Number_toString (g_roomName req)).
  - apply Exists_exists. exists VNull. split; [done|]. intros i. reflexivity.
Qed.

(** A room name that cannot be converted to a string does the same: the log
    of line 247 throws after the quiz is stored. *)
Theorem unlogged_quiz_is_stored_with_an_error (req : generate_request) (content : jsstring)
    (env : generate_env) (st : store) items :
  well_formed_generate req ->
  printable Number_toString (g_topic req) ->
  JSON_parse (JsString.jsonText content) = Some (VArr items) ->
  to_string Number_toString (g_roomName req) = None ->
  generate_quiz JSON_parse Number_toString req (Text content) env st =
    (Error 500 (lit "Quiz generation failed"),
     <[ new_quiz_id env := {| roomName := g_roomName req;
                              topic := g_topic req;
                              questions := items;
                              submissions := [];
                              createdAt := g_timestamp env |} ]> st).
Proof.
  intros Hreq Htopic Hparse Hroom. rewrite generate_quiz_valid by done.
  rewrite Hparse. cbv zeta. by rewrite Hroom.
Qed.

(** Reading the results right after a successful generation, under the
    identifier just returned, gives the parsed questions, the topic and the
    room of the request, no submission and the statistics 0, 0, 0, 0, also
    when the identifier was already in use. *)
Theorem new_quiz_has_empty_statistics (req : generate_request) (c : completion)
    (env : generate_env) (st st' : store) payload :
  generate_quiz JSON_parse Number_toString req c env st = (Json payload, st') ->
  exists content items,
    c = Text content /\
    JSON_parse (JsString.jsonText content) = Some (VArr items) /\
    quiz_results (quizId payload) st' =
      Json {| v_quizId := quizId payload;
              v_topic := g_topic req;
              v_roomName := g_roomName req;
              v_createdAt := g_timestamp env;
              v_questions := items;
              v_submissions := [];
              stats := {| totalSubmissions := 0; averageScore := Int 0;
                          highestScore := Int 0; lowestScore := Int 0 |} |}.
Proof.
  unfold generate_quiz. intros H.
  destruct (missing (g_topic req) || missing (g_roomName req)); [done|].
  destruct (to_string Number_toString (g_topic req)); [|done].
  destruct c as [| |content]; try done.
  destruct (JSON_parse (JsString.jsonText content)) as [[]|] eqn:Hp; try done.
  cbv zeta in H.
  destruct (to_string Number_toString (g_roomName req)); [|done].
  destruct (map_from public_question 0 items) as [qs|]; [|done].
  inversion H; subst; clear H. exists content, items. split; [done|]. split; [done|].
  simpl. unfold quiz_results, quizzes_get. by rewrite lookup_insert_eq.
Qed.

(** generate-quiz changes the store at the new identifier only: every other
    quiz is as before, an answer 200 means the new identifier is stored, and
    a rejected request changes nothing. *)
Theorem generation_touches_one_key (req : generate_request) (c : completion)
    (env : generate_env) (st : store) :
  (forall id, id <> new_quiz_id env ->
     snd (generate_quiz JSON_parse Number_toString req c env st) !! id = st !! id) /\
  (status (fst (generate_quiz JSON_parse Number_toString req c env st)) = 200 ->
   is_Some (snd (generate_quiz JSON_parse Number_toString req c env st)
              !! new_quiz_id env)) /\
  (status (fst (generate_quiz JSON_parse Number_toString req c env st)) = 400 ->
   snd (generate_quiz JSON_parse Number_toString req c env st) = st).
Proof.
  unfold generate_quiz.
  destruct (missing (g_topic req) || missing (g_roomName req)); [done|].
  destruct (to_string Number_toString (g_topic req)); [|done].
  destruct c as [| |content]; try done.
  destruct (JSON_parse (JsString.jsonText content)) as [[]|]; try done.
  cbv zeta.
  destruct (to_string Number_toString (g_roomName req)),
           (map_from public_question 0 items); simpl;
    (split; [intros id Hid; by rewrite lookup_insert_ne|]); try done.
  split; [intros _; rewrite lookup_insert_eq; by eexists|done].
Qed.

End GenerationEdges.

(** ** What a submission leaves alone *)

Section SubmissionFrame.

Variable Number_toString : float -> jsstring.

(** submit-quiz never adds or removes a quiz: the store has the same
    identifiers afterwards.  A stored quiz keeps its room, topic, questions
    and creation time, and its earlier submissions in their order; at most
    one record is appended, and none to a quiz other than the one that
    [quizId] names. *)
Theorem submission_edits_submissions_only (req : submit_request) (ts : jsstring)
    (st : store) :
  (forall id, snd (submit_quiz Number_toString req ts st) !! id = None <-> st !! id = None) /\
  (forall id q, st !! id = Some q ->
     exists q' added,
       snd (submit_quiz Number_toString req ts st) !! id = Some q' /\
       roomName q' = roomName q /\ topic q' = topic q /\
       questions q' = questions q /\ createdAt q' = createdAt q /\
       submissions q' = submissions q ++ added /\ length added <= 1 /\
       (to_string Number_toString (s_quizId req) <> Some id -> added = [])).
Proof.
  destruct (submit_quiz_store Number_toString req ts st)
    as [[-> _]|(id0 & q0 & sub & Hid & Hq0 & -> & _)].
  - split; [done|]. intros id q Hq. exists q, [].
    rewrite app_nil_r. simpl. by repeat split; try lia.
  - split.
    + intros id. destruct (decide (id0 = id)) as [<-|Hne].
      * rewrite lookup_insert_eq, Hq0. split; discriminate.
      * by rewrite lookup_insert_ne.
    + intros id q Hq. destruct (decide (id0 = id)) as [<-|Hne].
      * rewrite Hq in Hq0. inversion Hq0; subst q0.
        eexists _, [sub]. rewrite lookup_insert_eq. split; [done|].
        do 5 (split; [done|]). simpl. split; [lia|]. intros Hne. by destruct Hne.
      * exists q, []. rewrite lookup_insert_ne by done. rewrite app_nil_r. simpl.
        by repeat split; try lia.
Qed.

(** A submission that is not answered 200 leaves the whole store as it was,
    provided the student's name can be converted to a string; the answers
    400 and 404 leave it as it was in any case. *)
Theorem failed_submission_records_nothing (req : submit_request) (ts : jsstring)
    (st : store) :
  status (fst (submit_quiz Number_toString req ts st)) <> 200 ->
  printable Number_toString (s_studentName req) \/
  status (fst (submit_quiz Number_toString req ts st)) = 400 \/
  status (fst (submit_quiz Number_toString req ts st)) = 404 ->
  snd (submit_quiz Number_toString req ts st) = st.
Proof.
  intros Hs Hcase.
  destruct (submit_quiz_store Number_toString req ts st)
    as [[H _]|(id0 & q0 & sub & _ & _ & _ & _ & _ & _ & _ & Hst)]; [done|].
  destruct Hst as [[H200 _]|[H500 Hname]]; [done|].
  destruct Hcase as [[name Hp]|[H|H]]; congruence.
Qed.

(** ** Submitting again *)


End SubmissionFrame.

(** ** The three answers of quiz-results *)

(** quiz-results answers 200 exactly for the stored identifiers, 500 exactly
    for the property names of [Object.prototype] that are not stored, and
    404 for every other identifier. *)
Theorem quiz_results_statuses (id : jsstring) (st : store) :
  (status (quiz_results id st) = 200 <-> is_Some (st !! id)) /\
  (status (quiz_results id st) = 500 <->
     st !! id = None /\ id ∈ Object_prototype_names) /\
  (status (quiz_results id st) = 404 <->
     st !! id = None /\ id ∉ Object_prototype_names).
Proof.
  unfold quiz_results, quizzes_get. destruct (st !! id) as [q|]; simpl.
  - split; [split; [by eexists|done]|].
    split; (split; [discriminate|by intros []]).
  - destruct (decide (id ∈ Object_prototype_names)) as [Hin|Hout].
    + rewrite bool_decide_eq_true_2 by done. simpl.
      split; [split; [discriminate|by intros []]|].
      split; [done|]. split; [discriminate|by intros []].
    + rewrite bool_decide_eq_false_2 by done. simpl.
      split; [split; [discriminate|by intros []]|].
      split; [|done]. split; [discriminate|by intros []].
Qed.

(** ** The order of the statistics *)

Lemma total_between (lo hi : Z) (zs : list Z) :
  Forall (fun z => (lo <= z)%Z) zs -> Forall (fun z => (z <= hi)%Z) zs ->
  (lo * Z.of_nat (length zs) <= total zs <= hi * Z.of_nat (length zs))%Z.
Proof.
  intros Hlo. induction Hlo as [|z zs Hz _ IH]; intros Hhi; simpl length; simpl total.
  - lia.
  - inversion Hhi; subst. specialize (IH ltac:(done)). lia.
Qed.

Lemma rounded_mean_between (lo hi : Z) (zs : list Z) :
  zs <> [] ->
  Forall (fun z => (lo <= z)%Z) zs -> Forall (fun z => (z <= hi)%Z) zs ->
  (lo <= rounded_mean zs <= hi)%Z.
Proof.
  intros Hne Hlo Hhi. pose proof (total_between lo hi zs Hlo Hhi) as Ht.
  destruct zs as [|z zs]; [done|]. unfold rounded_mean.
  set (n := Z.of_nat (length (z :: zs))) in *.
  assert (Hn : (0 < n)%Z) by (subst n; simpl; lia). clearbody n.
  split.
  - apply Z.div_le_lower_bound; [lia|nia].
  - apply Z.lt_succ_r. apply Z.div_lt_upper_bound; [lia|nia].
Qed.

(** In a store that satisfies the data-model invariant, the statistics of a
    quiz with at least one question are integers with
    0 <= lowest <= average <= highest <= 100. *)
Theorem statistics_are_ordered (st : store) id q :
  consistent st ->
  st !! id = Some q ->
  questions q <> [] ->
  (Z.of_nat (length (questions q)) < 2 ^ 32)%Z ->
  (Z.of_nat (length (submissions q)) < 2 ^ 32)%Z ->
  exists view lo avg hi,
    quiz_results id st = Json view /\
    lowestScore (stats view) = Int lo /\
    averageScore (stats view) = Int avg /\
    highestScore (stats view) = Int hi /\
    (0 <= lo)%Z /\ (lo <= avg)%Z /\ (avg <= hi)%Z /\ (hi <= 100)%Z.
Proof.
  intros Hst Hq Hne Hlen Hsubs.
  destruct (consistent_scores q (submissions q) Hne Hlen (Hst _ _ Hq))
    as (zs & Hzs & Hrange).
  unfold quiz_results. rewrite (quizzes_get_own _ _ _ Hq).
  eexists _, (lowest zs), (rounded_mean zs), (highest zs).
  split; [reflexivity|]. cbn [stats].
  rewrite (compute_stats_integers _ zs Hzs Hrange); cycle 1.
  { apply (f_equal length) in Hzs. rewrite !length_map in Hzs. by rewrite <- Hzs. }
  cbn [lowestScore averageScore highestScore]. do 3 (split; [done|]).
  destruct (decide (zs = [])) as [->|Hzne]; [by vm_compute|].
  destruct (highest_is_maximum zs Hzne) as (Hhi & Hmax).
  destruct (lowest_is_minimum zs Hzne) as (Hlo & Hmin).
  pose proof (rounded_mean_between _ _ zs Hzne Hmin Hmax) as Hm.
  rewrite List.Forall_forall in Hrange.
  pose proof (Hrange _ Hhi). pose proof (Hrange _ Hlo). lia.
Qed.

(** ** The identifiers of generated quizzes *)

(** Every identifier minted by line 236 starts with [quiz_], so it is none
    of the property names of [Object.prototype]: the lookup of a generated
    identifier never lands on an inherited property. *)
Theorem generated_id_is_never_inherited (env : generate_env) (st : store) :
  (exists rest, new_quiz_id env = lit "quiz_" ++ rest) /\
  (new_quiz_id env ∉ Object_prototype_names) /\
  quizzes_get st (new_quiz_id env) <> Inherited.
Proof.
  assert (Hout : new_quiz_id env ∉ Object_prototype_names).
  { intros H. apply list_elem_of_In in H. unfold new_quiz_id in H.
    repeat (destruct H as [H|H]; [by vm_compute in H|]). done. }
  split; [by eexists|]. split; [done|].
  unfold quizzes_get. destruct (st !! new_quiz_id env); [done|].
  by rewrite bool_decide_eq_false_2.
Qed.


(** ** What the fence scrubbing leaves *)

Section Scrubbing.

Import JsString.

Lemma contains_nil (p : jsstring) : p <> [] -> ~ contains p [].
Proof.
  intros Hp (a & b & H). symmetry in H.
  apply app_eq_nil in H as [_ H]. apply app_eq_nil in H as [H _]. done.
Qed.

Lemma contains_cons (p : jsstring) (c : N) (r : jsstring) :
  contains p (c :: r) -> (exists b, c :: r = p ++ b) \/ contains p r.
Proof.
  intros ([|c' a] & b & H); simpl in H.
  - left. by exists b.
  - right. inversion H; subst. by exists a, b.
Qed.

Lemma contains_cons_r (p : jsstring) (c : N) (r : jsstring) :
  contains p r -> contains p (c :: r).
Proof. intros (a & b & ->). by exists (c :: a), b. Qed.

Lemma contains_app (p w1 s w2 : jsstring) :
  contains p s -> contains p (w1 ++ s ++ w2).
Proof.
  intros (a & b & ->). exists (w1 ++ a), (b ++ w2). by rewrite <- !app_assoc.
Qed.

Lemma contains_trim (p s : jsstring) : contains p (trim s) -> contains p s.
Proof.
  intros H. destruct (trim_split s) as (w1 & w2 & _ & _ & Hs).
  rewrite Hs. by apply contains_app.
Qed.

Lemma contains_json_fence (s : jsstring) : contains json_fence s -> contains fence s.
Proof.
  intros (a & b & ->). exists a, (lit "json" ++ b).
  unfold json_fence. by rewrite <- !app_assoc.
Qed.

(** A string without the marker is left as it is. *)
Lemma remove_marker_absent (a : N) (p' s : jsstring) :
  ~ contains (a :: p') s -> remove_marker (a :: p') s = s.
Proof.
  induction s as [|c t IH]; intros Hno; [done|].
  rewrite remove_marker_cons.
  destruct (strip_prefix (a :: p') (c :: t)) as [rest|] eqn:E.
  - apply strip_prefix_Some in E. destruct Hno. exists [], rest. by rewrite E.
  - rewrite IH; [done|]. intros H. apply Hno. by apply contains_cons_r.
Qed.

(** After the scan no marker is left: a code unit is kept only where no
    marker starts, and a kept backtick is never followed by a deleted marker. *)
Lemma remove_fence_clean (n : nat) : forall s,
  length s <= n -> ~ contains fence (remove_marker fence s).
Proof.
  induction n as [|n IH]; intros s Hlen.
  { destruct s; [|simpl in Hlen; lia]. by apply contains_nil. }
  destruct s as [|c t]; [by apply contains_nil|].
  unfold fence at 2. rewrite remove_marker_cons. fold fence.
  destruct (strip_prefix fence (c :: t)) as [rest|] eqn:E.
  - apply strip_prefix_Some in E. apply IH.
    pose proof (opt_newline_length rest) as Ho.
    apply (f_equal length) in E. rewrite length_app in E. simpl in *. lia.
  - intros H. apply contains_cons in H as [[b Hb]|H];
      [|by apply (IH t); [simpl in Hlen; lia|]].
    inversion Hb as [[Hc Ht]]. subst c. clear Hb.
    destruct t as [|d t']; [done|].
    unfold fence in Ht at 1. rewrite remove_marker_cons in Ht. fold fence in Ht.
    destruct (strip_prefix fence (d :: t')) as [rest2|] eqn:E2.
    { apply strip_prefix_Some in E2. inversion E2; subst. by vm_compute in E. }
    inversion Ht as [[Hd Ht']]. subst d. clear Ht.
    destruct t' as [|e t'']; [done|].
    unfold fence in Ht' at 1. rewrite remove_marker_cons in Ht'. fold fence in Ht'.
    destruct (strip_prefix fence (e :: t'')) as [rest3|] eqn:E3.
    { apply strip_prefix_Some in E3. inversion E3; subst. by vm_compute in E. }
    inversion Ht' as [[He Ht'']]. subst e. by vm_compute in E.
Qed.

Lemma trimStart_nonws (c : N) (y z : jsstring) :
  is_whitespace c = false -> trimStart (y ++ c :: z) = trimStart y ++ c :: z.
Proof.
  intros Hc. induction y as [|d y IH]; simpl; [by rewrite Hc|].
  by destruct (is_whitespace d).
Qed.

Lemma trimStart_head (s : jsstring) :
  trimStart s = [] \/ exists c t, trimStart s = c :: t /\ is_whitespace c = false.
Proof.
  induction s as [|c t IH]; simpl; [by left|].
  destruct (is_whitespace c) eqn:E; [done|]. right. by exists c, t.
Qed.

Lemma trimEnd_cons (c : N) (t : jsstring) :
  is_whitespace c = false -> trimEnd (c :: t) = c :: trimEnd t.
Proof.
  intros Hc. unfold trimEnd. simpl. rewrite trimStart_nonws by done.
  rewrite rev_app_distr. done.
Qed.

(** Trimming a trimmed string changes nothing. *)
Lemma trim_trim (s : jsstring) : trim (trim s) = trim s.
Proof.
  unfold trim. destruct (trimStart_head s) as [->|(c & t & -> & Hc)]; [done|].
  rewrite trimEnd_cons by done. simpl. rewrite Hc.
  rewrite <- trimEnd_cons by done. unfold trimEnd. rewrite rev_involutive.
  destruct (trimStart_head (rev (c :: t))) as [->|(d & u & -> & Hd)]; [done|].
  simpl. by rewrite Hd.
Qed.

Lemma jsonText_unfenced (s : jsstring) :
  ~ contains fence s -> jsonText s = trim s.
Proof.
  intros Hno. unfold jsonText, scrub.
  assert (Ht : ~ contains fence (trim s)) by (intros H; by apply Hno, contains_trim).
  unfold json_fence, fence at 2. cbn [app].
  rewrite (remove_marker_absent backtick _ (trim s)); cycle 1.
  { intros H. apply Ht. by apply contains_json_fence. }
  unfold fence. rewrite (remove_marker_absent backtick _ (trim s)) by done.
  apply trim_trim.
Qed.

(** The text handed to [JSON.parse] never holds three backticks in a row,
    wherever they stood in the response; it has no whitespace at either end,
    and scrubbing it again changes nothing. *)
Theorem parsed_text_has_no_fence (content : jsstring) :
  ~ contains fence (jsonText content) /\
  jsonText (jsonText content) = jsonText content /\
  trim (jsonText content) = jsonText content.
Proof.
  assert (H : ~ contains fence (jsonText content)).
  { unfold jsonText, scrub. intros H. apply contains_trim in H.
    by apply (remove_fence_clean _ _ (le_n _)) in H. }
  split; [done|]. split.
  - rewrite (jsonText_unfenced _ H). unfold jsonText, scrub. apply trim_trim.
  - unfold jsonText, scrub. apply trim_trim.
Qed.

End Scrubbing.

(** ** Code fences inside the response *)

Section FenceInside.

Import JsString.

Lemma contains_trimStart (s : jsstring) : contains fence s -> contains fence (trimStart s).
Proof.
  intros (a & b & ->). unfold fence. cbn [app].
  rewrite trimStart_nonws by done. by exists (trimStart a), b.
Qed.

Lemma contains_rev_fence (s : jsstring) : contains fence s -> contains fence (rev s).
Proof.
  intros (a & b & ->). exists (rev b), (rev a).
  rewrite !rev_app_distr. by rewrite <- app_assoc.
Qed.

Lemma trim_keeps_fence (s : jsstring) : contains fence s -> contains fence (trim s).
Proof.
  intros H. unfold trim, trimEnd.
  by apply contains_rev_fence, contains_trimStart, contains_rev_fence, contains_trimStart.
Qed.

(** The scrubbing of lines 222-225 does more than trim the response exactly
    when the response holds three backticks in a row somewhere. *)
Theorem response_is_altered_iff_fenced (content : jsstring) :
  jsonText content = trim content <-> ~ contains fence content.
Proof.
  split.
  - intros Heq Hc. apply trim_keeps_fence in Hc. rewrite <- Heq in Hc.
    unfold jsonText, scrub in Hc. apply contains_trim in Hc.
    by apply (remove_fence_clean _ _ (le_n _)) in Hc.
  - apply jsonText_unfenced.
Qed.

End FenceInside.

(** ** The question extracted from a transcript *)

Section Extraction.

Import JsString.

Variable Number_toString : float -> jsstring.

Lemma drop_last_quote_snoc (t : jsstring) : drop_last_quote (t ++ [double_quote]) = t.
Proof.
  unfold drop_last_quote. rewrite rev_app_distr. simpl. apply rev_involutive.
Qed.

Lemma drop_last_quote_spec (t : jsstring) :
  exists b, t = drop_last_quote t ++ b /\ (b = [] \/ b = [double_quote]) /\
            (last t <> Some double_quote -> b = []).
Proof.
  unfold drop_last_quote. destruct (rev t) as [|d r] eqn:E.
  - exists []. apply (f_equal (@rev N)) in E. rewrite rev_involutive in E. subst t.
    by split; [|split; [left|]].
  - apply (f_equal (@rev N)) in E. rewrite rev_involutive in E. simpl in E.
    destruct (N.eqb_spec d double_quote) as [->|Hne].
    + exists [double_quote]. split; [done|]. split; [by right|].
      intros Hl. rewrite E, last_snoc in Hl. done.
    + exists []. split; [by rewrite app_nil_r|]. by split; [left|].
Qed.

(** A content that consists of a double-quoted text, with optional
    whitespace around it, is answered as the text between the two quotes,
    whatever that text holds. *)
Theorem quoted_question_is_unwrapped (transcript : value)
    (before text after : jsstring) :
  missing transcript = false -> printable Number_toString transcript ->
  blank before -> blank after ->
  extract_question Number_toString transcript
    (Content (VStr (before ++ [double_quote] ++ text ++ [double_quote] ++ after)))
  = Json (VStr text).
Proof.
  intros Ht [t Hprint] Hb Ha. unfold extract_question. rewrite Ht, Hprint.
  rewrite trim_blank_l by done.
  replace ([double_quote] ++ text ++ [double_quote] ++ after)
    with (([double_quote] ++ text ++ [double_quote]) ++ after)
    by (by rewrite <- !app_assoc).
  rewrite trim_blank_r by done.
  change ([double_quote] ++ text ++ [double_quote])
    with (double_quote :: text ++ [double_quote]).
  rewrite trim_fixed by done. simpl. by rewrite drop_last_quote_snoc.
Qed.

(** For every string content, the extracted question is the trimmed content
    less at most one double quote at its start and one at its end; a trimmed
    content that neither starts nor ends with a double quote is returned as
    it is. *)
Theorem extraction_removes_end_quotes_only (transcript : value) (s : jsstring) :
  missing transcript = false -> printable Number_toString transcript ->
  exists r a b,
    extract_question Number_toString transcript (Content (VStr s)) = Json (VStr r) /\
    trim s = a ++ r ++ b /\
    (a = [] \/ a = [double_quote]) /\ (b = [] \/ b = [double_quote]) /\
    (head (trim s) <> Some double_quote -> a = []) /\
    (last (trim s) <> Some double_quote -> b = []).
Proof.
  intros Ht [t0 Hprint]. unfold extract_question. rewrite Ht, Hprint.
  exists (unquote (trim s)). generalize (trim s). intros u.
  destruct u as [|c t]; [by exists [], []; repeat split; try left|].
  simpl. destruct (N.eqb_spec c double_quote) as [->|Hne].
  - destruct (drop_last_quote_spec t) as (b & Hb & Hcase & Hlast).
    exists [double_quote], b. split; [done|]. split; [simpl; by rewrite <- Hb|].
    split; [by right|]. split; [done|]. split; [done|].
    intros Hl. apply Hlast. intros Hl'. apply Hl. rewrite last_cons, Hl'. done.
  - destruct (drop_last_quote_spec (c :: t)) as (b & Hb & Hcase & Hlast).
    exists [], b. split; [done|]. split; [done|]. split; [by left|]. done.
Qed.

(** ** The summary *)

(** A summary answered with status 200 is never empty and has no whitespace
    at either end: it is the trimmed content, or the fixed fallback text when
    there is no message or the content is blank. *)
Theorem summary_is_never_empty (topic : value) (r : reply) (summary : jsstring) :
  generate_summary Number_toString topic r = Json summary ->
  summary <> [] /\ JsString.trim summary = summary /\
  (summary = no_summary \/ exists content, r = Content (VStr content) /\
                                            summary = JsString.trim content).
Proof.
  unfold generate_summary. destruct (missing topic); [done|].
  destruct (to_string Number_toString topic); [|done].
  destruct r as [| | |[]]; try done.
  - inversion 1; subst. split; [done|]. split; [by vm_compute|by left].
  - destruct (JsString.trim s) as [|c t] eqn:E; inversion 1; subst.
    + split; [done|]. split; [by vm_compute|by left].
    + split; [done|]. split; [|right; by exists s].
      rewrite <- E. apply trim_trim.
Qed.

(** ** A completion without content *)

(** The three routes that forward a completion grow stricter in this order:
    whatever generate-summary accepts, extract-question accepts, and whatever
    extract-question accepts, ask-ai accepts.  A message whose content is
    [null] or [undefined] separates them: ask-ai and extract-question answer
    200, generate-summary answers 500 (line 411 calls [trim] on it). *)
Theorem routes_differ_on_missing_content (question transcript topic : value) :
  missing question = false ->
  missing transcript = false -> printable Number_toString transcript ->
  missing topic = false -> printable Number_toString topic ->
  (forall r, status (generate_summary Number_toString topic r) = 200 ->
             status (extract_question Number_toString transcript r) = 200) /\
  (forall r, status (extract_question Number_toString transcript r) = 200 ->
             status (ask_ai question r) = 200) /\
  (forall c, c = VUndefined \/ c = VNull ->
     ask_ai question (Content c) = Json c /\
     extract_question Number_toString transcript (Content c) = Json VUndefined /\
     status (generate_summary Number_toString topic (Content c)) = 500).
Proof.
  intros Hq Ht [t Hpt] Hp [p Hpp]. unfold generate_summary, extract_question, ask_ai.
  rewrite Hq, Ht, Hp, Hpt, Hpp. split; [|split].
  - intros [| | |[]]; simpl; try done.
  - intros [| | |[]]; simpl; try done.
  - by intros c [->| ->].
Qed.

(** A transcript or a topic that cannot be converted to a string never
    reaches the collaborator: building the prompt throws. *)
Theorem unprintable_field_fails_before_the_call (v : value) (r : reply) :
  missing v = false -> to_string Number_toString v = None ->
  extract_question Number_toString v r = Error 500 (lit "Question extraction failed") /\
  generate_summary Number_toString v r = Error 500 (lit "Summary generation failed") /\
  (status (ask_ai v r) = 200 <-> r <> Rejected /\ r <> NoChoices).
Proof.
  intros Hv Hp. unfold extract_question, generate_summary, ask_ai. rewrite Hv, Hp.
  split; [done|]. split; [done|].
  destruct r; simpl; split; try done; try (by intros []); by repeat split.
Qed.

End Extraction.

(** ** Tokens *)

Section TokenProperties.

Variable toJwt :
  jsstring -> jsstring -> value -> list (jsstring * value) -> video_grant ->
  option jsstring.

Variable Number_toString : float -> jsstring.

Lemma token_log_throws_false (req : token_request) :
  token_log_throws Number_toString req = false <->
  (missing (t_className req) = true \/ printable Number_toString (t_className req)) /\
  (missing (t_topic req) = true \/ printable Number_toString (t_topic req)).
Proof.
  unfold token_log_throws, printable.
  destruct (missing (t_className req)), (missing (t_topic req)); simpl;
    repeat match goal with
           | |- context [bool_decide ?P] => destruct (decide P);
               [rewrite (bool_decide_eq_true_2 P) by done
               |rewrite (bool_decide_eq_false_2 P) by done]
           end; simpl; split; try done; try (intros _; split; by auto);
    intros [[?|?] [?|?]]; done.
Qed.

Lemma token_route_json (env : livekit_env) (req : token_request) resp :
  token_route toJwt Number_toString env req = Json resp <->
    missing (t_name req) = false /\ missing (t_room req) = false /\
    missing (t_role req) = false /\ unset (LIVEKIT_API_KEY env) = false /\
    unset (LIVEKIT_API_SECRET env) = false /\ unset (LIVEKIT_URL env) = false /\
    toJwt (given (LIVEKIT_API_KEY env)) (given (LIVEKIT_API_SECRET env))
          (t_name req) (token_metadata req)
          {| roomJoin := true; room := t_room req; canPublish := true;
             canSubscribe := true; canUpdateOwnMetadata := true |}
      = Some (token resp) /\
    (missing (t_className req) = true \/ printable Number_toString (t_className req)) /\
    (missing (t_topic req) = true \/ printable Number_toString (t_topic req)) /\
    url resp = given (LIVEKIT_URL env).
Proof.
  unfold token_route, token_grant.
  destruct (missing (t_name req)) eqn:E1; simpl;
    [split; [done|intros (? & _); congruence]|].
  destruct (missing (t_room req)) eqn:E2; simpl;
    [split; [done|intros (_ & ? & _); congruence]|].
  destruct (missing (t_role req)) eqn:E3; simpl;
    [split; [done|intros (_ & _ & ? & _); congruence]|].
  destruct (unset (LIVEKIT_API_KEY env)) eqn:E4; simpl;
    [split; [done|intros (_ & _ & _ & ? & _); congruence]|].
  destruct (unset (LIVEKIT_API_SECRET env)) eqn:E5; simpl;
    [split; [done|intros (_ & _ & _ & _ & ? & _); congruence]|].
  destruct (unset (LIVEKIT_URL env)) eqn:E6; simpl;
    [split; [done|intros (_ & _ & _ & _ & _ & ? & _); congruence]|].
  destruct (toJwt _ _ _ _ _) as [jwt|] eqn:Ej;
    [|split; [done|intros (_ & _ & _ & _ & _ & _ & ? & _); congruence]].
  destruct (token_log_throws Number_toString req) eqn:Hlog.
  - split; [done|]. intros (_ & _ & _ & _ & _ & _ & _ & Hc & Ht & _).
    assert (token_log_throws Number_toString req = false)
      by by apply token_log_throws_false.
    congruence.
  - apply token_log_throws_false in Hlog as [Hc Ht]. split.
    + inversion 1; subst. by repeat split.
    + intros (_ & _ & _ & _ & _ & _ & Hj & _ & _ & Hu).
      destruct resp as [tk u]. simpl in *. by inversion Hj; subst.
Qed.

(** The token route answers 400 exactly when the request has a body and the
    name, the room or the role is missing, whatever the environment holds.
    It answers with a token exactly when these and the three environment
    variables are present, the signer succeeds on the grant for the requested
    room, which is the same for every role, and the log of line 65 can print
    the class name and the topic; every other request is answered 500.  The
    metadata holds the role, and the class name and the topic exactly when
    they are given. *)
Theorem token_is_issued_iff (env : livekit_env) (body : option token_request) :
  (status (post_token toJwt Number_toString env body) = 400 <->
     exists req, body = Some req /\
       missing (t_name req) || missing (t_room req) || missing (t_role req) = true) /\
  (forall resp, post_token toJwt Number_toString env body = Json resp <->
     exists req, body = Some req /\
       missing (t_name req) = false /\ missing (t_room req) = false /\
       missing (t_role req) = false /\ unset (LIVEKIT_API_KEY env) = false /\
       unset (LIVEKIT_API_SECRET env) = false /\ unset (LIVEKIT_URL env) = false /\
       toJwt (given (LIVEKIT_API_KEY env)) (given (LIVEKIT_API_SECRET env))
             (t_name req) (token_metadata req)
             {| roomJoin := true; room := t_room req; canPublish := true;
                canSubscribe := true; canUpdateOwnMetadata := true |}
         = Some (token resp) /\
       (missing (t_className req) = true \/ printable Number_toString (t_className req)) /\
       (missing (t_topic req) = true \/ printable Number_toString (t_topic req)) /\
       url resp = given (LIVEKIT_URL env)) /\
  (status (post_token toJwt Number_toString env body) = 200 \/
   status (post_token toJwt Number_toString env body) = 400 \/
   status (post_token toJwt Number_toString env body) = 500) /\
  (forall req,
     own_property (lit "role") (token_metadata req) = t_role req /\
     own_property (lit "className") (token_metadata req)
       = (if missing (t_className req) then VUndefined else t_className req) /\
     own_property (lit "topic") (token_metadata req)
       = (if missing (t_topic req) then VUndefined else t_topic req)).
Proof.
  split; [|split; [|split]].
  - destruct body as [req|]; simpl.
    + unfold token_route.
      destruct (missing (t_name req) || missing (t_room req) || missing (t_role req))
        eqn:Hm.
      * split; [by exists req|done].
      * split; [|intros (? & [= <-] & ?); congruence].
        destruct (unset (LIVEKIT_API_KEY env) || unset (LIVEKIT_API_SECRET env)
                  || unset (LIVEKIT_URL env)); [done|].
        destruct (toJwt _ _ _ _ _); [|done].
        by destruct (token_log_throws Number_toString req).
    + split; [done|]. by intros (? & ? & _).
  - intros resp. destruct body as [req|]; simpl;
      [|split; [done|by intros (? & ? & _)]].
    rewrite token_route_json. split; [intros H; by exists req|].
    by intros (? & [= <-] & H).
  - destruct body as [req|]; simpl; [|by right; right]. unfold token_route.
    destruct (missing (t_name req) || missing (t_room req) || missing (t_role req));
      [by right; left|].
    destruct (unset (LIVEKIT_API_KEY env) || unset (LIVEKIT_API_SECRET env)
              || unset (LIVEKIT_URL env)); [by right; right|].
    destruct (toJwt _ _ _ _ _); [|by right; right].
    destruct (token_log_throws Number_toString req); [by right; right|by left].
  - intros req. unfold token_metadata.
    by destruct (missing (t_className req)), (missing (t_topic req)).
Qed.

End TokenProperties.

(** ** The status of every answer *)

Lemma map_from_defined {A B : Type} (f : nat -> A -> option B) (P : A -> Prop) (l : list A) :
  (forall i x, is_Some (f i x) <-> P x) ->
  forall k, is_Some (map_from f k l) <-> Forall P l.
Proof.
  intros Hf. induction l as [|x l IH]; intros k; simpl.
  - split; [constructor|by eexists].
  - specialize (Hf k x). specialize (IH (S k)).
    destruct (f k x) as [y|].
    + destruct (map_from f (S k) l) as [ys|].
      * split; [|by eexists]. intros _. constructor; [by apply Hf|by apply IH].
      * split; [by intros []|]. inversion 1; subst.
        destruct IH as [_ IH]. by destruct IH.
    + split; [by intros []|]. inversion 1; subst.
      destruct Hf as [_ Hf]. by destruct Hf.
Qed.

Lemma grade_is_Some (a : value) (i : nat) (q : value) : is_Some (grade a i q) <-> non_null q.
Proof.
  split; [|intros H; by apply grade_defined].
  unfold grade, non_null. destruct q; simpl; try done; by intros [].
Qed.

Lemma public_question_is_Some (i : nat) (q : value) :
  is_Some (public_question i q) <-> non_null q.
Proof.
  split; [|intros H; by apply public_question_defined].
  unfold public_question, non_null. destruct q; simpl; try done; by intros [].
Qed.

Section Statuses.

Variable JSON_parse : jsstring -> option value.

Variable Number_toString : float -> jsstring.

(** The paths through submit-quiz, each with its status. *)
Lemma submit_quiz_paths (req : submit_request) (ts : jsstring) (st : store) :
  let s := status (fst (submit_quiz Number_toString req ts st)) in
  (~ well_formed_submit req /\ s = 400) \/
  (well_formed_submit req /\ to_string Number_toString (s_quizId req) = None /\ s = 500) \/
  (exists id, well_formed_submit req /\
     to_string Number_toString (s_quizId req) = Some id /\
     st !! id = None /\
     (quizzes_get st id = Absent /\ s = 404 \/ quizzes_get st id = Inherited /\ s = 500)) \/
  (exists id q, well_formed_submit req /\
     to_string Number_toString (s_quizId req) = Some id /\
     st !! id = Some q /\
     (~ Forall non_null (questions q) /\ s = 500 \/
      Forall non_null (questions q) /\
      (to_string Number_toString (s_studentName req) = None /\ s = 500 \/
       printable Number_toString (s_studentName req) /\ s = 200))).
Proof.
  cbv zeta.
  destruct (well_formed_submit_dec req) as [Hwf|Hwf];
    [|left; by rewrite submit_quiz_rejected].
  right.
  destruct (to_string Number_toString (s_quizId req)) as [id|] eqn:Hid;
    [|left; by rewrite submit_quiz_no_key].
  right. rewrite (submit_quiz_valid _ _ _ _ id) by done. unfold quizzes_get.
  destruct (st !! id) as [q|] eqn:Hq.
  - right. exists id, q. do 3 (split; [done|]).
    pose proof (map_from_defined (grade (s_answers req)) non_null (questions q)
                  (grade_is_Some (s_answers req)) 0) as Hdef.
    destruct (map_from (grade (s_answers req)) 0 (questions q)) as [rs|].
    + right. split; [apply Hdef; by eexists|]. cbv zeta.
      destruct (to_string Number_toString (s_studentName req)) eqn:Hname;
        [right|left]; split; try done. by eexists.
    + left. split; [|done]. intros H. apply Hdef in H. by destruct H.
  - left. exists id. do 3 (split; [done|]). rewrite Hq.
    destruct (bool_decide _); [right|left]; split; reflexivity.
Qed.

(** The status of submit-quiz, case by case.  400: the body lacks a field.
    404: the key that [quizId] converts to is neither stored nor inherited.
    200: the quiz is stored, none of its questions is null and the student's
    name can be logged.  500: there is no body, or [quizId] cannot be
    converted to a key, or the key is an inherited name, or a stored question
    is null, or the name cannot be logged. *)
Theorem submit_quiz_statuses (body : option submit_request) (ts : jsstring) (st : store) :
  (status (fst (post_submit_quiz Number_toString body ts st)) = 400 <->
     exists req, body = Some req /\ ~ well_formed_submit req) /\
  (status (fst (post_submit_quiz Number_toString body ts st)) = 404 <->
     exists req id, body = Some req /\ well_formed_submit req /\
       to_string Number_toString (s_quizId req) = Some id /\
       quizzes_get st id = Absent) /\
  (status (fst (post_submit_quiz Number_toString body ts st)) = 200 <->
     exists req id q, body = Some req /\ well_formed_submit req /\
       to_string Number_toString (s_quizId req) = Some id /\ st !! id = Some q /\
       Forall non_null (questions q) /\
       printable Number_toString (s_studentName req)) /\
  (status (fst (post_submit_quiz Number_toString body ts st)) = 500 <->
     body = None \/
     exists req, body = Some req /\ well_formed_submit req /\
       (to_string Number_toString (s_quizId req) = None \/
        (exists id, to_string Number_toString (s_quizId req) = Some id /\
           (quizzes_get st id = Inherited \/
            exists q, st !! id = Some q /\ ~ Forall non_null (questions q))) \/
        (exists id q, to_string Number_toString (s_quizId req) = Some id /\
           st !! id = Some q /\ Forall non_null (questions q) /\
           to_string Number_toString (s_studentName req) = None))).
Proof.
  destruct body as [req|]; simpl.
  2:{ split; [split; [done|by intros (? & ? & _)]|].
      split; [split; [done|by intros (? & ? & ? & _)]|].
      split; [split; [done|by intros (? & ? & ? & ? & _)]|].
      split; [by left|done]. }
  pose proof (submit_quiz_paths req ts st) as Hpaths. cbv zeta in Hpaths.
  destruct Hpaths as [(Hwf & ->)|[(Hwf & Hid & ->)
    |[(id & Hwf & Hid & Hq & [(Hg & ->)|(Hg & ->)])
     |(id & q & Hwf & Hid & Hq & [(Hn & ->)|(Hall & [(Hname & ->)|(Hname & ->)])])]]].
  all: try (pose proof (quizzes_get_own _ _ _ Hq) as Hown).
  all: (split; [|split; [|split]]); (split; [intros Hs|]); try discriminate Hs.
  all: try (by exists req).
  all: try (intros H; exfalso;
            repeat match goal with
                   | H : _ \/ _ |- _ => destruct H
                   | H : ex _ |- _ => destruct H
                   | H : _ /\ _ |- _ => destruct H
                   | H : printable _ _ |- _ => destruct H
                   end; simplify_eq; congruence).
  all: try (intros _; reflexivity).
  all: try (by eauto 20).
  all: try (right; exists req; split; [done|]; split; [done|]; by eauto 20).
Qed.

Lemma well_formed_generate_dec req :
  {well_formed_generate req} + {~ well_formed_generate req}.
Proof.
  unfold well_formed_generate.
  destruct (missing (g_topic req)); [right; by intros []|].
  destruct (missing (g_roomName req)); [right; by intros []|by left].
Qed.

Lemma generate_quiz_rejected req c env st :
  ~ well_formed_generate req ->
  generate_quiz JSON_parse Number_toString req c env st
  = (Error 400 (lit "Topic and roomName are required"), st).
Proof.
  intros H. unfold generate_quiz, well_formed_generate in *.
  destruct (missing (g_topic req)); [done|].
  destruct (missing (g_roomName req)); [done|]. by destruct H.
Qed.

Lemma generate_quiz_no_prompt req c env st :
  well_formed_generate req ->
  to_string Number_toString (g_topic req) = None ->
  generate_quiz JSON_parse Number_toString req c env st
  = (Error 500 (lit "Quiz generation failed"), st).
Proof. intros [H1 H2] Ht. unfold generate_quiz. by rewrite H1, H2, Ht. Qed.

(** The status of generate-quiz: 400 exactly for a body without topic or
    room; 200 exactly when the topic can be written into the prompt, the
    completion carries a text that parses, after scrubbing, to an array
    without null elements, and the room name can be logged; 500 otherwise. *)
Theorem generate_quiz_statuses (body : option generate_request) (c : completion)
    (env : generate_env) (st : store) :
  (status (fst (post_generate_quiz JSON_parse Number_toString body c env st)) = 400 <->
     exists req, body = Some req /\ ~ well_formed_generate req) /\
  (status (fst (post_generate_quiz JSON_parse Number_toString body c env st)) = 200 <->
     exists req content items,
       body = Some req /\ well_formed_generate req /\
       printable Number_toString (g_topic req) /\
       c = Text content /\
       JSON_parse (JsString.jsonText content) = Some (VArr items) /\
       printable Number_toString (g_roomName req) /\
       Forall non_null items) /\
  (status (fst (post_generate_quiz JSON_parse Number_toString body c env st)) = 200 \/
   status (fst (post_generate_quiz JSON_parse Number_toString body c env st)) = 400 \/
   status (fst (post_generate_quiz JSON_parse Number_toString body c env st)) = 500).
Proof.
  destruct body as [req|]; simpl.
  2:{ split; [split; [done|by intros (? & ? & _)]|].
      split; [split; [done|by intros (? & ? & ? & ? & _)]|by right; right]. }
  destruct (well_formed_generate_dec req) as [Hwf|Hwf].
  2:{ rewrite generate_quiz_rejected by done. simpl.
      split; [split; [by exists req|done]|]. split; [|by right; left].
      split; [done|intros (? & ? & ? & [= <-] & ? & _); done]. }
  assert (H400 : forall n : nat, n <> 400 ->
            (n = 400 <-> exists req0, Some req = Some req0 /\ ~ well_formed_generate req0)).
  { intros n Hn. split; [done|]. intros (? & [= <-] & H). done. }
  destruct (to_string Number_toString (g_topic req)) as [t|] eqn:Ht.
  2:{ rewrite generate_quiz_no_prompt by done. simpl.
      split; [by apply H400|]. split; [|by right; right].
      split; [done|]. intros (? & ? & ? & [= <-] & _ & [? Hp] & _). congruence. }
  rewrite generate_quiz_valid by (done || by eexists).
  destruct c as [| |content]; simpl.
  - split; [by apply H400|]. split; [|by right; right].
    split; [done|]. by intros (? & ? & ? & _ & _ & _ & ? & _).
  - split; [by apply H400|]. split; [|by right; right].
    split; [done|]. by intros (? & ? & ? & _ & _ & _ & ? & _).
  - destruct (JSON_parse (JsString.jsonText content)) as [v|] eqn:Hp.
    2:{ simpl. split; [by apply H400|]. split; [|by right; right].
        split; [done|]. intros (? & ? & ? & _ & _ & _ & [= <-] & Hp' & _). congruence. }
    destruct v as [| | | | |items|];
      try (simpl; split; [by apply H400|]; split; [|by right; right];
           split; [done|]; intros (? & ? & ? & _ & _ & _ & [= <-] & Hp' & _);
           congruence).
    cbv zeta.
    pose proof (map_from_defined public_question non_null items
                  public_question_is_Some 0) as Hdef.
    destruct (to_string Number_toString (g_roomName req)) as [room|] eqn:Hroom.
    2:{ simpl. split; [by apply H400|]. split; [|by right; right].
        split; [done|].
        intros (? & ? & ? & [= <-] & _ & _ & _ & _ & [? Hr] & _). congruence. }
    destruct (map_from public_question 0 items) as [qs|]; simpl.
    + split; [by apply H400|]. split; [|by left].
      split; [|done]. intros _. exists req, content, items.
      split; [done|]. split; [done|]. split; [by eexists|]. split; [done|].
      split; [done|]. split; [by eexists|]. apply Hdef. by eexists.
    + split; [by apply H400|]. split; [|by right; right].
      split; [done|]. intros (? & ? & ? & _ & _ & _ & [= <-] & Hp' & _ & Hall).
      rewrite Hp in Hp'. inversion Hp'; subst.
      apply Hdef in Hall. by destruct Hall.
Qed.

End Statuses.

(** ** Examples of the further properties *)

(** Scenario B's quiz answered with its own key, and with no answer. *)
Lemma full_and_zero_marks_example :
  (exists payload st',
     submit_quiz sample_number_text (submit_to sample_id (numbers [0; 1; 1; 3; 2]))
       (lit "t") scenario_B_store = (Json payload, st') /\ r_score payload = Int 100) /\
  (exists payload st',
     submit_quiz sample_number_text (submit_to sample_id (VArr [])) (lit "t")
       scenario_B_store = (Json payload, st') /\ r_score payload = Int 0).
Proof.
  split.
  - assert (E : exists payload st',
        submit_quiz sample_number_text (submit_to sample_id (numbers [0; 1; 1; 3; 2]))
          (lit "t") scenario_B_store = (Json payload, st') /\
        r_correctCount payload = 5 /\ r_totalQuestions payload = 5).
    { eexists _, _. split; [vm_compute; reflexivity|]. vm_compute. done. }
    destruct E as (payload & st' & E & Hc & Ht). exists payload, st'.
    split; [exact E|].
    apply (full_and_zero_marks sample_number_text _ _ _ _ _ E); [lia|congruence].
  - assert (E : exists payload st',
        submit_quiz sample_number_text (submit_to sample_id (VArr [])) (lit "t")
          scenario_B_store = (Json payload, st') /\
        r_correctCount payload = 0 /\ r_totalQuestions payload = 5).
    { eexists _, _. split; [vm_compute; reflexivity|]. vm_compute. done. }
    destruct E as (payload & st' & E & Hc & Ht). exists payload, st'.
    split; [exact E|].
    apply (full_and_zero_marks sample_number_text _ _ _ _ _ E); [lia|congruence].
Defined.

Lemma accepted_score_example :
  exists payload st' z,
    submit_quiz sample_number_text (submit_to sample_id (numbers [0; 1; 2; 3; 0]))
      (lit "t") scenario_B_store = (Json payload, st') /\
    r_score payload = Int z /\ (0 <= z <= 100)%Z.
Proof.
  assert (E : exists payload st',
      submit_quiz sample_number_text (submit_to sample_id (numbers [0; 1; 2; 3; 0]))
        (lit "t") scenario_B_store = (Json payload, st') /\ r_totalQuestions payload = 5).
  { eexists _, _. split; [vm_compute; reflexivity|]. vm_compute. done. }
  destruct E as (payload & st' & E & Ht).
  destruct (accepted_score_is_a_percentage sample_number_text _ _ _ _ _ E)
    as (z & Hz & Hr).
  - lia.
  - rewrite Ht. by vm_compute.
  - by exists payload, st', z.
Defined.

(** A question stored without an answer key, and a submission without
    answers. *)
Lemma unkeyed_question_example :
  exists payload st',
    submit_quiz sample_number_text (submit_to sample_id (VArr [])) (lit "t")
      unkeyed_quiz_store = (Json payload, st') /\
    r_correctCount payload = 1 /\
    Forall (fun r => isCorrect r = true) (results payload) /\
    r_score payload = Int 100.
Proof.
  apply (keyless_questions_reward_missing_answers sample_number_text
           (submit_to sample_id (VArr [])) (lit "t") unkeyed_quiz_store sample_id
           (quiz_with [VObj [(lit "question", VStr (lit "Which one?"))]] [])).
  - by vm_compute.
  - reflexivity.
  - apply printable_string.
  - by vm_compute.
  - repeat constructor.
  - intros i. simpl. by destruct i.
Defined.

(** The answers of scenario B sent as one string of digits. *)
Lemma string_answers_example :
  exists payload st',
    submit_quiz sample_number_text (submit_to sample_id (VStr (lit "01132"))) (lit "t")
      scenario_B_store = (Json payload, st') /\
    r_correctCount payload = 0 /\
    Forall (fun r => isCorrect r = false) (results payload) /\
    r_score payload = Int 0.
Proof.
  apply (answers_of_another_type_score_zero sample_number_text
           (submit_to sample_id (VStr (lit "01132"))) (lit "t") scenario_B_store sample_id
           (quiz_with (map sample_question [0; 1; 1; 3; 2]) [])).
  - by vm_compute.
  - reflexivity.
  - apply printable_string.
  - by vm_compute.
  - repeat constructor; by eexists.
  - intros i n. simpl. by destruct (_ !! i).
Defined.

Lemma empty_quiz_statistics_example :
  exists view,
    quiz_results sample_id
      (snd (submit_quiz sample_number_text (submit_to sample_id (numbers [0])) (lit "t")
              empty_quiz_store))
      = Json view /\
    totalSubmissions (stats view) = 1 /\
    averageScore (stats view) = NaN /\
    highestScore (stats view) = NaN /\
    lowestScore (stats view) = NaN.
Proof.
  apply (submission_to_empty_quiz_poisons_statistics sample_number_text
           (submit_to sample_id (numbers [0])) (lit "t") empty_quiz_store sample_id
           (quiz_with [] [])).
  - by vm_compute.
  - reflexivity.
  - by vm_compute.
  - done.
Defined.

(** The response [[null]]: answered 500, and stored. *)
Lemma stored_null_question_example :
  generate_quiz sample_parse sample_number_text sample_request (Text (lit "[null]"))
    sample_env ∅
  = (Error 500 (lit "Quiz generation failed"), null_quiz_store).
Proof.
  apply (null_question_is_stored_with_an_error sample_parse sample_number_text
           sample_request (lit "[null]") sample_env ∅ [VNull] sample_request_well_formed).
  - apply printable_string.
  - by vm_compute.
  - apply list_elem_of_here.
Defined.

(** The response [[]] for a room named by an object with a property
    [toString]: answered 500, and stored. *)
Lemma unlogged_quiz_example :
  generate_quiz sample_parse sample_number_text
    {| g_topic := VStr (lit "Photosynthesis"); g_roomName := unprintable_name |}
    (Text (lit "[]")) sample_env ∅
  = (Error 500 (lit "Quiz generation failed"),
     <[ sample_id := {| roomName := unprintable_name;
                        topic := VStr (lit "Photosynthesis");
                        questions := []; submissions := [];
                        createdAt := lit "2023-11-14T22:13:20.000Z" |} ]> ∅).
Proof.
  apply (unlogged_quiz_is_stored_with_an_error sample_parse sample_number_text
           {| g_topic := VStr (lit "Photosynthesis"); g_roomName := unprintable_name |}
           (lit "[]") sample_env ∅ []).
  - by split.
  - apply printable_string.
  - by vm_compute.
  - reflexivity.
Defined.

(** Minting the identifier of scenario F's quiz again: the two recorded
    submissions are gone. *)
Lemma new_quiz_results_example :
  exists content items,
    Text (lit "[]") = Text content /\
    sample_parse (JsString.jsonText content) = Some (VArr items) /\
    quiz_results sample_id
      (snd (generate_quiz sample_parse sample_number_text sample_request
              (Text (lit "[]")) sample_env scenario_F_store))
    = Json {| v_quizId := sample_id; v_topic := VStr (lit "Photosynthesis");
              v_roomName := VStr (lit "room-1");
              v_createdAt := lit "2023-11-14T22:13:20.000Z";
              v_questions := items; v_submissions := [];
              stats := {| totalSubmissions := 0; averageScore := Int 0;
                          highestScore := Int 0; lowestScore := Int 0 |} |}.
Proof.
  apply (new_quiz_has_empty_statistics sample_parse sample_number_text sample_request
           (Text (lit "[]")) sample_env scenario_F_store
           (snd (generate_quiz sample_parse sample_number_text sample_request
                   (Text (lit "[]")) sample_env scenario_F_store))
           {| quizId := sample_id; public_questions := [] |}).
  vm_compute. reflexivity.
Defined.

(** An inherited name, answered 500, and falsy answers, answered 400. *)
Lemma failed_submission_example :
  snd (submit_quiz sample_number_text (submit_to (lit "constructor") (numbers [0]))
         (lit "t") scenario_B_store) = scenario_B_store /\
  snd (submit_quiz sample_number_text
         {| s_quizId := VStr sample_id; s_studentName := unprintable_name;
            s_answers := VNull |} (lit "t") scenario_B_store) = scenario_B_store.
Proof.
  split.
  - apply (failed_submission_records_nothing sample_number_text
             (submit_to (lit "constructor") (numbers [0])) (lit "t") scenario_B_store).
    + by vm_compute.
    + left. apply printable_string.
  - apply (failed_submission_records_nothing sample_number_text
             {| s_quizId := VStr sample_id; s_studentName := unprintable_name;
                s_answers := VNull |} (lit "t") scenario_B_store).
    + by vm_compute.
    + right. left. by vm_compute.
Defined.


Lemma ordered_statistics_example :
  exists view lo avg hi,
    quiz_results sample_id scenario_F_store = Json view /\
    lowestScore (stats view) = Int lo /\
    averageScore (stats view) = Int avg /\
    highestScore (stats view) = Int hi /\
    (0 <= lo)%Z /\ (lo <= avg)%Z /\ (avg <= hi)%Z /\ (hi <= 100)%Z.
Proof.
  apply (statistics_are_ordered scenario_F_store sample_id scenario_F_quiz
           scenario_F_consistent).
  - by vm_compute.
  - done.
  - by vm_compute.
  - by vm_compute.
Defined.

(** The model's reply to the transcript of line 127, in quotes and followed
    by a line break. *)
Lemma quoted_question_example :
  extract_question sample_number_text (VStr (lit "I have a doubt. What is a variable?"))
    (Content (VStr ([] ++ [double_quote] ++ lit "What is a variable?" ++ [double_quote]
                    ++ [JsString.newline])))
  = Json (VStr (lit "What is a variable?")).
Proof.
  apply (quoted_question_is_unwrapped sample_number_text
           (VStr (lit "I have a doubt. What is a variable?"))
           [] (lit "What is a variable?") [JsString.newline]).
  - done.
  - apply printable_string.
  - constructor.
  - by repeat constructor.
Defined.

(** A quotation inside the reply stays; the quote that ends the reply goes. *)
Lemma end_quotes_example :
  exists r a b,
    extract_question sample_number_text (VStr (lit "t"))
      (Content (VStr (lit "What is " ++ quote ++ lit "x" ++ quote))) = Json (VStr r) /\
    JsString.trim (lit "What is " ++ quote ++ lit "x" ++ quote) = a ++ r ++ b /\
    (a = [] \/ a = [double_quote]) /\ (b = [] \/ b = [double_quote]) /\
    (head (JsString.trim (lit "What is " ++ quote ++ lit "x" ++ quote))
       <> Some double_quote -> a = []) /\
    (last (JsString.trim (lit "What is " ++ quote ++ lit "x" ++ quote))
       <> Some double_quote -> b = []).
Proof.
  apply (extraction_removes_end_quotes_only sample_number_text (VStr (lit "t"))
           (lit "What is " ++ quote ++ lit "x" ++ quote)).
  - done.
  - apply printable_string.
Defined.

Lemma summary_example :
  (lit "Plants make sugar." <> [] /\
   JsString.trim (lit "Plants make sugar.") = lit "Plants make sugar." /\
   (lit "Plants make sugar." = no_summary \/
    exists content, Content (VStr (lit " Plants make sugar. ")) = Content (VStr content) /\
                    lit "Plants make sugar." = JsString.trim content)) /\
  (no_summary <> [] /\ JsString.trim no_summary = no_summary /\
   (no_summary = no_summary \/
    exists content, Content (VStr (lit "  ")) = Content (VStr content) /\
                    no_summary = JsString.trim content)).
Proof.
  split.
  - apply (summary_is_never_empty sample_number_text (VStr (lit "Photosynthesis"))
             (Content (VStr (lit " Plants make sugar. ")))).
    by vm_compute.
  - apply (summary_is_never_empty sample_number_text (VStr (lit "Photosynthesis"))
             (Content (VStr (lit "  ")))).
    by vm_compute.
Defined.

Lemma missing_content_example :
  (forall r, status (generate_summary sample_number_text (VStr (lit "Photosynthesis")) r)
             = 200 ->
             status (extract_question sample_number_text
                       (VStr (lit "What is a variable?")) r) = 200) /\
  (forall r, status (extract_question sample_number_text
                       (VStr (lit "What is a variable?")) r) = 200 ->
             status (ask_ai (VStr (lit "What is a variable?")) r) = 200) /\
  (forall c, c = VUndefined \/ c = VNull ->
     ask_ai (VStr (lit "What is a variable?")) (Content c) = Json c /\
     extract_question sample_number_text (VStr (lit "What is a variable?")) (Content c)
       = Json VUndefined /\
     status (generate_summary sample_number_text (VStr (lit "Photosynthesis"))
               (Content c)) = 500).
Proof.
  apply (routes_differ_on_missing_content sample_number_text
           (VStr (lit "What is a variable?")) (VStr (lit "What is a variable?"))
           (VStr (lit "Photosynthesis"))); try done; apply printable_string.
Defined.

(** A transcript sent as an object with a property [toString]. *)
Lemma unprintable_field_example :
  extract_question sample_number_text unprintable_name (Content (VStr (lit "What?")))
    = Error 500 (lit "Question extraction failed") /\
  generate_summary sample_number_text unprintable_name (Content (VStr (lit "What?")))
    = Error 500 (lit "Summary generation failed") /\
  (status (ask_ai unprintable_name (Content (VStr (lit "What?")))) = 200 <->
   Content (VStr (lit "What?")) <> Rejected /\ Content (VStr (lit "What?")) <> NoChoices).
Proof.
  apply (unprintable_field_fails_before_the_call sample_number_text unprintable_name
           (Content (VStr (lit "What?")))); reflexivity.
Defined.
